(** * Telegram bot API bindings: the types of [types.go] and their behaviour

    The development follows the file: Go's strings and run-time panics, the
    struct declarations (as the reflective JSON decoder sees them), the
    methods of [Chat] and [Message], the [encoding/json] decoding of
    [Update], [Message] and [APIResponse], and the [UpdatesChannel] with its
    [Clear] loop. *)

From Stdlib Require Import ZArith List Bool Ascii String Lia.
Import ListNotations.

#[local] Set Warnings "-register-all".

Local Open Scope string_scope.
Local Open Scope Z_scope.

(** ** Go run-time outcomes *)

(** A Go call either returns or panics; the two run-time panics that the
    code of this file can raise are a nil pointer dereference and an index
    or slice bound out of range. *)
Inductive panic : Type :=
| NilDereference
| OutOfRange.

Inductive outcome (A : Type) : Type :=
| Ret (a : A)
| Panic (p : panic).

Arguments Ret {A} a.
Arguments Panic {A} p.

Definition bind {A B : Type} (x : outcome A) (k : A -> outcome B) : outcome B :=
  match x with
  | Ret a => k a
  | Panic p => Panic p
  end.

Notation "x <- c ;; k" := (bind c (fun x => k))
  (at level 61, c at next level, right associativity).

(** ** Go strings: sequences of bytes *)

Module GoString.

(** [len(s)]. *)
Definition len (s : string) : Z := Z.of_nat (String.length s).

(** [s[i]]: panics when [i] is out of range. *)
Definition at_ (s : string) (i : Z) : outcome ascii :=
  if (0 <=? i) && (i <? len s) then
    match String.get (Z.to_nat i) s with
    | Some c => Ret c
    | None => Panic OutOfRange
    end
  else Panic OutOfRange.

(** [s[lo:hi]]: panics unless [0 <= lo <= hi <= len(s)]. *)
Definition slice (s : string) (lo hi : Z) : outcome string :=
  if (0 <=? lo) && (lo <=? hi) && (hi <=? len s) then
    Ret (String.substring (Z.to_nat lo) (Z.to_nat (hi - lo)) s)
  else Panic OutOfRange.

(** [s[lo:]] and [s[:hi]]. *)
Definition slice_from (s : string) (lo : Z) : outcome string := slice s lo (len s).
Definition slice_to (s : string) (hi : Z) : outcome string := slice s 0 hi.

(** [strings.Index(s, substr)]: the index of the first instance of [substr]
    in [s], or [-1]. *)
Fixpoint index_from (i : Z) (s substr : string) : Z :=
  if String.prefix substr s then i
  else match s with
       | EmptyString => -1
       | String _ s' => index_from (i + 1) s' substr
       end.

Definition Index (s substr : string) : Z := index_from 0 s substr.

(** The loop of [strings.SplitN] ([genSplit] with [sepSave = 0]) for the
    remaining [n - 1 - i] iterations: cut at the next separator until the
    count is used up or no separator is left.  A slice here stays in bounds
    because [Index] returned the position of a whole separator; should it
    not, the rest of the text is kept as it is. *)
Fixpoint splitLoop (n : nat) (s sep : string) : list string :=
  match n with
  | O => [s]
  | S n' =>
      let m := Index s sep in
      if m <? 0 then [s]
      else match slice_to s m, slice_from s (m + len sep) with
           | Ret a, Ret rest => a :: splitLoop n' rest sep
           | _, _ => [s]
           end
  end.

(** [strings.SplitN(s, sep, n)] for a non-empty separator and [n >= 0],
    which is how this file calls it ([" "] and [2]): [n = 0] gives no
    substring, otherwise at most [n] substrings, the last one the unsplit
    remainder. *)
Definition SplitN (s sep : string) (n : Z) : list string :=
  if n =? 0 then []
  else
    let n := if n >? len s + 1 then len s + 1 else n in
    splitLoop (Z.to_nat (n - 1)) s sep.

End GoString.

(** ** JSON syntax trees

    The decoder is modelled from the syntax tree on: the input is a JSON
    text that is well formed, with the members of an object in the order of
    the text (duplicates kept) and every key already unquoted. *)

(** A number literal: an integer literal (no fraction, no exponent), or a
    literal with a fraction or an exponent, standing for [m * 10^e]. *)
Inductive number : Type :=
| NInt (z : Z)
| NDec (m e : Z).

Inductive json : Type :=
| JNull
| JBool (b : bool)
| JNum (n : number)
| JStr (s : string)
| JArr (elems : list json)
| JObj (members : list (string * json)).

(** ** Go types and values, as package [reflect] shows them to the decoder *)

Inductive gotype : Type :=
| TBool
| TInt
| TInt64
| TFloat64
| TString
| TRawMessage                 (* json.RawMessage *)
| TPtr (t : gotype)           (* *T *)
| TSlice (t : gotype)         (* []T *)
| TStruct (name : string).    (* a struct type of the package *)

(** A [float64] is kept as the literal it was read from; a [json.RawMessage]
    as the syntax tree of the bytes it holds ([None] is the nil slice); a
    slice as its elements together with the slots of its backing array
    beyond its length that still hold earlier elements ([None] is the nil
    slice; a slot never written holds the zero value); a struct as its
    fields in declaration order, under their Go names. *)
Inductive value : Type :=
| VBool (b : bool)
| VInt (n : Z)
| VFloat (x : number)
| VString (s : string)
| VRaw (raw : option json)
| VPtr (p : option value)
| VSlice (l : option (list value * list value))
| VStruct (fs : list (string * value)).

(** A field declaration: Go name, type, and the name in its [json] tag. *)
Record fieldDecl : Type := Field {
  f_name : string;
  f_type : gotype;
  f_tag : string
}.

(** ** The struct declarations of [types.go] reachable from [APIResponse]
       and [Update] *)

Definition APIResponse_fields : list fieldDecl :=
  [ Field "Ok" TBool "ok";
    Field "Result" TRawMessage "result";
    Field "ErrorCode" TInt "error_code";
    Field "Description" TString "description";
    Field "Parameters" (TPtr (TStruct "ResponseParameters")) "parameters" ].

Definition ResponseParameters_fields : list fieldDecl :=
  [ Field "MigrateToChatID" TInt64 "migrate_to_chat_id";
    Field "RetryAfter" TInt "retry_after" ].

Definition Update_fields : list fieldDecl :=
  [ Field "UpdateID" TInt "update_id";
    Field "Message" (TPtr (TStruct "Message")) "message";
    Field "EditedMessage" (TPtr (TStruct "Message")) "edited_message";
    Field "ChannelPost" (TPtr (TStruct "Message")) "channel_post";
    Field "EditedChannelPost" (TPtr (TStruct "Message")) "edited_channel_post";
    Field "InlineQuery" (TPtr (TStruct "InlineQuery")) "inline_query";
    Field "ChosenInlineResult" (TPtr (TStruct "ChosenInlineResult")) "chosen_inline_result";
    Field "CallbackQuery" (TPtr (TStruct "CallbackQuery")) "callback_query" ].

Definition User_fields : list fieldDecl :=
  [ Field "ID" TInt "id";
    Field "FirstName" TString "first_name";
    Field "LastName" TString "last_name";
    Field "UserName" TString "username" ].

Definition Chat_fields : list fieldDecl :=
  [ Field "ID" TInt64 "id";
    Field "Type" TString "type";
    Field "Title" TString "title";
    Field "UserName" TString "username";
    Field "FirstName" TString "first_name";
    Field "LastName" TString "last_name";
    Field "AllMembersAreAdmins" TBool "all_members_are_administrators" ].

Definition Message_fields : list fieldDecl :=
  [ Field "MessageID" TInt "message_id";
    Field "From" (TPtr (TStruct "User")) "from";
    Field "Date" TInt "date";
    Field "Chat" (TPtr (TStruct "Chat")) "chat";
    Field "ForwardFrom" (TPtr (TStruct "User")) "forward_from";
    Field "ForwardFromChat" (TPtr (TStruct "Chat")) "forward_from_chat";
    Field "ForwardFromMessageID" TInt "forward_from_message_id";
    Field "ForwardDate" TInt "forward_date";
    Field "ReplyToMessage" (TPtr (TStruct "Message")) "reply_to_message";
    Field "EditDate" TInt "edit_date";
    Field "Text" TString "text";
    Field "Entities" (TPtr (TSlice (TStruct "MessageEntity"))) "entities";
    Field "Audio" (TPtr (TStruct "Audio")) "audio";
    Field "Document" (TPtr (TStruct "Document")) "document";
    Field "Game" (TPtr (TStruct "Game")) "game";
    Field "Photo" (TPtr (TSlice (TStruct "PhotoSize"))) "photo";
    Field "Sticker" (TPtr (TStruct "Sticker")) "sticker";
    Field "Video" (TPtr (TStruct "Video")) "video";
    Field "Voice" (TPtr (TStruct "Voice")) "voice";
    Field "Caption" TString "caption";
    Field "Contact" (TPtr (TStruct "Contact")) "contact";
    Field "Location" (TPtr (TStruct "Location")) "location";
    Field "Venue" (TPtr (TStruct "Venue")) "venue";
    Field "NewChatMember" (TPtr (TStruct "User")) "new_chat_member";
    Field "LeftChatMember" (TPtr (TStruct "User")) "left_chat_member";
    Field "NewChatTitle" TString "new_chat_title";
    Field "NewChatPhoto" (TPtr (TSlice (TStruct "PhotoSize"))) "new_chat_photo";
    Field "DeleteChatPhoto" TBool "delete_chat_photo";
    Field "GroupChatCreated" TBool "group_chat_created";
    Field "SuperGroupChatCreated" TBool "supergroup_chat_created";
    Field "ChannelChatCreated" TBool "channel_chat_created";
    Field "MigrateToChatID" TInt64 "migrate_to_chat_id";
    Field "MigrateFromChatID" TInt64 "migrate_from_chat_id";
    Field "PinnedMessage" (TPtr (TStruct "Message")) "pinned_message" ].

Definition MessageEntity_fields : list fieldDecl :=
  [ Field "Type" TString "type";
    Field "Offset" TInt "offset";
    Field "Length" TInt "length";
    Field "URL" TString "url";
    Field "User" (TPtr (TStruct "User")) "user" ].

Definition PhotoSize_fields : list fieldDecl :=
  [ Field "FileID" TString "file_id";
    Field "Width" TInt "width";
    Field "Height" TInt "height";
    Field "FileSize" TInt "file_size" ].

Definition Audio_fields : list fieldDecl :=
  [ Field "FileID" TString "file_id";
    Field "Duration" TInt "duration";
    Field "Performer" TString "performer";
    Field "Title" TString "title";
    Field "MimeType" TString "mime_type";
    Field "FileSize" TInt "file_size" ].

Definition Document_fields : list fieldDecl :=
  [ Field "FileID" TString "file_id";
    Field "Thumbnail" (TPtr (TStruct "PhotoSize")) "thumb";
    Field "FileName" TString "file_name";
    Field "MimeType" TString "mime_type";
    Field "FileSize" TInt "file_size" ].

Definition Sticker_fields : list fieldDecl :=
  [ Field "FileID" TString "file_id";
    Field "Width" TInt "width";
    Field "Height" TInt "height";
    Field "Thumbnail" (TPtr (TStruct "PhotoSize")) "thumb";
    Field "Emoji" TString "emoji";
    Field "FileSize" TInt "file_size" ].

Definition Video_fields : list fieldDecl :=
  [ Field "FileID" TString "file_id";
    Field "Width" TInt "width";
    Field "Height" TInt "height";
    Field "Duration" TInt "duration";
    Field "Thumbnail" (TPtr (TStruct "PhotoSize")) "thumb";
    Field "MimeType" TString "mime_type";
    Field "FileSize" TInt "file_size" ].

Definition Voice_fields : list fieldDecl :=
  [ Field "FileID" TString "file_id";
    Field "Duration" TInt "duration";
    Field "MimeType" TString "mime_type";
    Field "FileSize" TInt "file_size" ].

Definition Contact_fields : list fieldDecl :=
  [ Field "PhoneNumber" TString "phone_number";
    Field "FirstName" TString "first_name";
    Field "LastName" TString "last_name";
    Field "UserID" TInt "user_id" ].

Definition Location_fields : list fieldDecl :=
  [ Field "Longitude" TFloat64 "longitude";
    Field "Latitude" TFloat64 "latitude" ].

Definition Venue_fields : list fieldDecl :=
  [ Field "Location" (TStruct "Location") "location";
    Field "Title" TString "title";
    Field "Address" TString "address";
    Field "FoursquareID" TString "foursquare_id" ].

Definition CallbackQuery_fields : list fieldDecl :=
  [ Field "ID" TString "id";
    Field "From" (TPtr (TStruct "User")) "from";
    Field "Message" (TPtr (TStruct "Message")) "message";
    Field "InlineMessageID" TString "inline_message_id";
    Field "ChatInstance" TString "chat_instance";
    Field "Data" TString "data";
    Field "GameShortName" TString "game_short_name" ].

Definition Game_fields : list fieldDecl :=
  [ Field "Title" TString "title";
    Field "Description" TString "description";
    Field "Photo" (TSlice (TStruct "PhotoSize")) "photo";
    Field "Text" TString "text";
    Field "TextEntities" (TSlice (TStruct "MessageEntity")) "text_entities";
    Field "Animation" (TStruct "Animation") "animation" ].

Definition Animation_fields : list fieldDecl :=
  [ Field "FileID" TString "file_id";
    Field "Thumb" (TStruct "PhotoSize") "thumb";
    Field "FileName" TString "file_name";
    Field "MimeType" TString "mime_type";
    Field "FileSize" TInt "file_size" ].

Definition InlineQuery_fields : list fieldDecl :=
  [ Field "ID" TString "id";
    Field "From" (TPtr (TStruct "User")) "from";
    Field "Location" (TPtr (TStruct "Location")) "location";
    Field "Query" TString "query";
    Field "Offset" TString "offset" ].

Definition ChosenInlineResult_fields : list fieldDecl :=
  [ Field "ResultID" TString "result_id";
    Field "From" (TPtr (TStruct "User")) "from";
    Field "Location" (TPtr (TStruct "Location")) "location";
    Field "InlineMessageID" TString "inline_message_id";
    Field "Query" TString "query" ].

Definition structs : list (string * list fieldDecl) :=
  [ ("APIResponse", APIResponse_fields);
    ("ResponseParameters", ResponseParameters_fields);
    ("Update", Update_fields);
    ("User", User_fields);
    ("Chat", Chat_fields);
    ("Message", Message_fields);
    ("MessageEntity", MessageEntity_fields);
    ("PhotoSize", PhotoSize_fields);
    ("Audio", Audio_fields);
    ("Document", Document_fields);
    ("Sticker", Sticker_fields);
    ("Video", Video_fields);
    ("Voice", Voice_fields);
    ("Contact", Contact_fields);
    ("Location", Location_fields);
    ("Venue", Venue_fields);
    ("CallbackQuery", CallbackQuery_fields);
    ("Game", Game_fields);
    ("Animation", Animation_fields);
    ("InlineQuery", InlineQuery_fields);
    ("ChosenInlineResult", ChosenInlineResult_fields) ].

(** Association lists keyed by strings: the struct table and struct values. *)
Fixpoint assoc {A : Type} (k : string) (l : list (string * A)) : option A :=
  match l with
  | [] => None
  | (k', a) :: l' => if String.eqb k k' then Some a else assoc k l'
  end.

Definition fieldsOf (name : string) : list fieldDecl :=
  match assoc name structs with
  | Some fs => fs
  | None => []
  end.

(** The zero value of a type.  A struct held by value inside a struct
    ([Venue.Location], [Game.Animation], [Animation.Thumb]) is zeroed with
    it; Go rejects a struct that contains itself by value, so the nesting is
    no deeper than the number of struct types. *)
Fixpoint zero_upto (depth : nat) (t : gotype) : value :=
  match t with
  | TBool => VBool false
  | TInt | TInt64 => VInt 0
  | TFloat64 => VFloat (NInt 0)
  | TString => VString ""
  | TRawMessage => VRaw None
  | TPtr _ => VPtr None
  | TSlice _ => VSlice None
  | TStruct name =>
      match depth with
      | O => VStruct []
      | S d => VStruct (map (fun f => (f_name f, zero_upto d (f_type f))) (fieldsOf name))
      end
  end.

Definition zero (t : gotype) : value := zero_upto (List.length structs) t.

(** Reading and assigning a field of a struct value. *)
Definition structFields (v : value) : list (string * value) :=
  match v with
  | VStruct fs => fs
  | _ => []
  end.

Fixpoint setField (name : string) (w : value) (fs : list (string * value))
  : list (string * value) :=
  match fs with
  | [] => [(name, w)]
  | (n, v) :: fs' =>
      if String.eqb name n then (n, w) :: fs' else (n, v) :: setField name w fs'
  end.

Definition getField (f : fieldDecl) (fs : list (string * value)) : value :=
  match assoc (f_name f) fs with
  | Some v => v
  | None => zero (f_type f)
  end.

(** ** [encoding/json]: decoding a syntax tree into a Go value *)

Module Json.

(** The kind of JSON value named by an [UnmarshalTypeError]. *)
Inductive jsonKind : Type := KBool | KNumber | KString | KArray | KObject.

(** [*json.UnmarshalTypeError]: a JSON value that does not fit the Go type
    at its place. *)
Record UnmarshalTypeError : Type := TypeError {
  Value : jsonKind;
  Type_ : gotype
}.

(** The decoder goes on after a type error and reports the first one when
    it is done ([d.saveError], [d.savedError]). *)
Definition errs : Type := option UnmarshalTypeError.

Definition saveError (e : UnmarshalTypeError) (s : errs) : errs :=
  match s with
  | None => Some e
  | Some _ => s
  end.

(** *** Matching a member's key with a field *)

Definition isLower (c : ascii) : bool :=
  let n := N_of_ascii c in (97 <=? n)%N && (n <=? 122)%N.

Definition toUpper (c : ascii) : ascii :=
  if isLower c then ascii_of_N (N_of_ascii c - 32) else c.

(** [foldName]: the key under simple Unicode case folding, each rune mapped
    to the smallest rune of its fold set.  For the letters of the ASCII
    names of this file the fold sets are the two cases of the letter, and
    besides, for [k] the Kelvin sign U+212A (bytes E2 84 AA) and for [s]
    the long s U+017F (bytes C5 BF).  Other runes outside ASCII are left as
    they are: folded or not, they differ from every ASCII name. *)
Fixpoint foldName (s : string) : string :=
  match s with
  | EmptyString => EmptyString
  | String c s' =>
      match c, s' with
      | "197"%char, String "191"%char s'' => String "S"%char (foldName s'')
      | "226"%char, String "132"%char (String "170"%char s'') =>
          String "K"%char (foldName s'')
      | _, _ => String (toUpper c) (foldName s')
      end
  end.

(** The field for a key: the one whose name is the key exactly, else the
    first one equal to it under case folding. *)
Definition findField (fields : list fieldDecl) (key : string) : option fieldDecl :=
  match find (fun f => String.eqb (f_tag f) key) fields with
  | Some f => Some f
  | None => find (fun f => String.eqb (foldName (f_tag f)) (foldName key)) fields
  end.

(** *** Numbers *)

(** [int] is 64 bits wide (as on amd64 and arm64), like [int64]. *)
Definition intFits (z : Z) : bool := (- 2 ^ 63 <=? z) && (z <? 2 ^ 63).

(** [strconv.ParseFloat(s, 64)] fails on a literal that rounds to an
    infinity: one of magnitude at least [2^1024 - 2^970]. *)
Definition floatLimit : Z := 2 ^ 1024 - 2 ^ 970.

Definition floatFits (n : number) : bool :=
  match n with
  | NInt z => Z.abs z <? floatLimit
  | NDec m e =>
      if 0 <=? e then Z.abs m * 10 ^ e <? floatLimit
      else Z.abs m <? floatLimit * 10 ^ (- e)
  end.

(** *** Pointers *)

(** [indirect(v, false)]: walk down through pointers, allocating the nil
    ones, to the value that is decoded into.  The result is the type and
    value found there and the way a new value is put back in place. *)
Fixpoint indirect (t : gotype) (v : value) : gotype * value * (value -> value) :=
  match t with
  | TPtr t' =>
      let target := match v with
                    | VPtr (Some w) => w
                    | _ => zero t'
                    end in
      let '(bt, bv, put) := indirect t' target in
      (bt, bv, fun r => VPtr (Some (put r)))
  | _ => (t, v, fun r => r)
  end.

(** *** Literals *)

(** [null]: a pointer or slice becomes nil and a value of any other kind is
    left as it is, except that a [json.RawMessage], being an [Unmarshaler],
    receives the four bytes. *)
Definition storeNull (t : gotype) (v : value) : value :=
  match t with
  | TPtr _ => VPtr None
  | TSlice _ => VSlice None
  | TRawMessage => VRaw (Some JNull)
  | _ => v
  end.

(** [literalStore] for [true], [false], a string or a number, at the value
    [indirect] arrived at. *)
Definition literalStore (j : json) (t : gotype) (v : value) (s : errs)
  : value * errs :=
  match t, j with
  | TRawMessage, _ => (VRaw (Some j), s)
  | TBool, JBool b => (VBool b, s)
  | _, JBool _ => (v, saveError (TypeError KBool t) s)
  | TString, JStr x => (VString x, s)
  | _, JStr _ => (v, saveError (TypeError KString t) s)
  | (TInt | TInt64), JNum (NInt z) =>
      if intFits z then (VInt z, s) else (v, saveError (TypeError KNumber t) s)
  | TFloat64, JNum n =>
      if floatFits n then (VFloat n, s) else (v, saveError (TypeError KNumber t) s)
  | _, JNum _ => (v, saveError (TypeError KNumber t) s)
  | _, _ => (v, s)
  end.

(** *** Objects and arrays *)

Section Members.

(** The decoder of a member's or element's value. *)
Variable value_ : json -> gotype -> value -> errs -> value * errs.

(** [d.object] on a struct: the members in order; each one whose key has
    a field is decoded into that field's present value, the others are
    skipped. *)
Fixpoint object (fields : list fieldDecl) (members : list (string * json))
    (fs : list (string * value)) (s : errs) : list (string * value) * errs :=
  match members with
  | [] => (fs, s)
  | (key, x) :: rest =>
      match findField fields key with
      | Some f =>
          let '(w, s1) := value_ x (f_type f) (getField f fs) s in
          object fields rest (setField (f_name f) w fs) s1
      | None => object fields rest fs s
      end
  end.

(** [d.array] on a slice: element [i] is decoded into slot [i] of the
    backing array, which holds the slice's element [i], beyond the length
    what an earlier, longer content left there, and the zero value where
    nothing was written (the slice is grown only once every slot is in
    use).  [slots] are the slots from index [i] on. *)
Fixpoint array (te : gotype) (elems : list json) (slots : list value) (s : errs)
  : list value * errs :=
  match elems with
  | [] => ([], s)
  | x :: rest =>
      let '(w, s1) := value_ x te (hd (zero te) slots) s in
      let '(ws, s2) := array te rest (tl slots) s1 in
      (w :: ws, s2)
  end.

End Members.

(** [d.value]. *)
Fixpoint value_ (j : json) (t : gotype) (v : value) (s : errs) {struct j}
  : value * errs :=
  match j with
  | JNull => (storeNull t v, s)
  | JObj members =>
      let '(bt, bv, put) := indirect t v in
      match bt with
      | TRawMessage => (put (VRaw (Some j)), s)
      | TStruct name =>
          let '(fs, s') := object value_ (fieldsOf name) members (structFields bv) s in
          (put (VStruct fs), s')
      | _ => (put bv, saveError (TypeError KObject bt) s)
      end
  | JArr elems =>
      let '(bt, bv, put) := indirect t v in
      match bt with
      | TRawMessage => (put (VRaw (Some j)), s)
      | TSlice te =>
          let slots := match bv with
                       | VSlice (Some (l, spare)) => (l ++ spare)%list
                       | _ => []
                       end in
          let '(ws, s') := array value_ te elems slots s in
          (* the slice is cut to the array's length; an empty array gives
             a fresh empty slice *)
          let spare := match elems with
                       | [] => []
                       | _ => skipn (List.length elems) slots
                       end in
          (put (VSlice (Some (ws, spare))), s')
      | _ => (put bv, saveError (TypeError KArray bt) s)
      end
  | _ =>
      let '(bt, bv, put) := indirect t v in
      let '(w, s') := literalStore j bt bv s in
      (put w, s')
  end.

(** The scanner checks the whole text before anything is decoded, and
    rejects a text in which arrays and objects are nested deeper than
    [maxNestingDepth]. *)
Definition maxNestingDepth : Z := 10000.

Fixpoint depth (j : json) : Z :=
  match j with
  | JArr elems => 1 + fold_right (fun x d => Z.max (depth x) d) 0 elems
  | JObj members =>
      1 + fold_right (fun kx d => let '(_, x) := kx in Z.max (depth x) d) 0 members
  | _ => 0
  end.

Definition wellNested (j : json) : bool := depth j <=? maxNestingDepth.

(** [n] arrays around a value. *)
Fixpoint nest (n : nat) (j : json) : json :=
  match n with
  | O => j
  | S n' => JArr [nest n' j]
  end.

(** The error that [json.Unmarshal] returns: a [*json.SyntaxError] from the
    scanner, or the first [*json.UnmarshalTypeError] of the decoder. *)
Inductive error : Type :=
| SyntaxError
| Mismatch (e : UnmarshalTypeError).

(** [json.Unmarshal(data, &v)] for [v] of type [t]: the value after the
    call, and the error returned.  A text the scanner rejects leaves the
    value as it is. *)
Definition Unmarshal (data : json) (t : gotype) (v : value) : value * option error :=
  if wellNested data then
    let '(w, s) := value_ data t v None in (w, option_map Mismatch s)
  else (v, Some SyntaxError).

End Json.

(** ** Reading struct values *)

(** A pointer to a struct is [None] when nil. *)
Definition ptr : Type := option value.

Definition field (name : string) (v : value) : option value :=
  assoc name (structFields v).

Definition ptrField (name : string) (v : value) : ptr :=
  match field name v with
  | Some (VPtr p) => p
  | _ => None
  end.

Definition stringField (name : string) (v : value) : string :=
  match field name v with
  | Some (VString s) => s
  | _ => ""
  end.

Definition intField (name : string) (v : value) : Z :=
  match field name v with
  | Some (VInt n) => n
  | _ => 0
  end.

Definition boolField (name : string) (v : value) : bool :=
  match field name v with
  | Some (VBool b) => b
  | _ => false
  end.

Definition rawField (name : string) (v : value) : option json :=
  match field name v with
  | Some (VRaw r) => r
  | _ => None
  end.

(** How many of some answers are true. *)
Definition countTrue (l : list bool) : nat := List.length (filter (fun b => b) l).

(** ** [Chat] *)

Module Chat.

Definition Type_ (c : value) : string := stringField "Type" c.

(** [IsPrivate] returns if the Chat is a private conversation. *)
Definition IsPrivate (c : value) : bool := String.eqb (Type_ c) "private".

(** [IsGroup] returns if the Chat is a group. *)
Definition IsGroup (c : value) : bool := String.eqb (Type_ c) "group".

(** [IsSuperGroup] returns if the Chat is a supergroup. *)
Definition IsSuperGroup (c : value) : bool := String.eqb (Type_ c) "supergroup".

(** [IsChannel] returns if the Chat is a channel. *)
Definition IsChannel (c : value) : bool := String.eqb (Type_ c) "channel".

(** A chat that has the given type and no other field set. *)
Definition ofType (type : string) : value :=
  VStruct (setField "Type" (VString type) (structFields (zero (TStruct "Chat")))).

End Chat.

(** ** [Message] *)

Module Message.

Import GoString.

(** [m.Text] through the receiver [m *Message]: a nil receiver panics. *)
Definition Text (m : ptr) : outcome string :=
  match m with
  | Some v => Ret (stringField "Text" v)
  | None => Panic NilDereference
  end.

(** [IsCommand] returns true if message starts with '/':
    [m.Text != "" && m.Text[0] == '/']. *)
Definition IsCommand (m : ptr) : outcome bool :=
  text <- Text m ;;
  if negb (String.eqb text "") then
    c <- at_ text 0 ;;
    Ret (Ascii.eqb c "/")
  else Ret false.

(** Element [i] of a slice of strings: panics when out of range. *)
Definition elem (l : list string) (i : nat) : outcome string :=
  match nth_error l i with
  | Some s => Ret s
  | None => Panic OutOfRange
  end.

(** [Command]: the command of a command message, without the bot name of
    the at-bot syntax; the empty string for any other message. *)
Definition Command (m : ptr) : outcome string :=
  isCommand <- IsCommand m ;;
  if negb isCommand then Ret ""
  else
    text <- Text m ;;
    first <- elem (SplitN text " " 2) 0 ;;
    command <- slice_from first 1 ;;
    let i := Index command "@" in
    if negb (i =? -1) then slice_to command i else Ret command.

(** [CommandArguments]: all text after the command name of a command
    message; the empty string for any other message. *)
Definition CommandArguments (m : ptr) : outcome string :=
  isCommand <- IsCommand m ;;
  if negb isCommand then Ret ""
  else
    text <- Text m ;;
    let split := SplitN text " " 2 in
    if negb (Z.of_nat (List.length split) =? 2) then Ret ""
    else
      text' <- Text m ;;
      elem (SplitN text' " " 2) 1.

(** A message that has the given text and no other field set. *)
Definition withText (text : string) : value :=
  VStruct (setField "Text" (VString text) (structFields (zero (TStruct "Message")))).

End Message.

(** ** [UpdatesChannel] and [Clear] *)

Module Chan.

(** A channel of updates: the items buffered, oldest first, the capacity
    it was made with (0 for an unbuffered channel), and whether it has been
    closed.  A sender or receiver that cannot go on waits. *)
Record chan : Type := Chan {
  buf : list value;
  cap : nat;
  closed : bool
}.

(** [len(ch)]. *)
Definition len (c : chan) : Z := Z.of_nat (List.length (buf c)).

(** [<-ch]. *)
Inductive recvResult : Type :=
| Received (u : value) (c' : chan)   (* the oldest item leaves the buffer *)
| EndOfStream                        (* closed and drained: the zero value, at once *)
| RecvBlocks.                        (* open and empty: the receiver waits *)

Definition recv (c : chan) : recvResult :=
  match buf c with
  | u :: rest => Received u (Chan rest (cap c) (closed c))
  | [] => if closed c then EndOfStream else RecvBlocks
  end.

(** [ch <- u]. *)
Inductive sendResult : Type :=
| Sent (c' : chan)
| SendBlocks                         (* the buffer is full: the sender waits *)
| SendPanics.                        (* send on a closed channel *)

Definition send (u : value) (c : chan) : sendResult :=
  if closed c then SendPanics
  else if (List.length (buf c) <? cap c)%nat then Sent (Chan (buf c ++ [u]) (cap c) false)
  else SendBlocks.

(** A send that finds a receiver waiting at the channel hands it the
    update, past the buffer and whatever the capacity; a receiver waits
    only at an open channel with nothing buffered. *)
Definition handOver (u : value) (c : chan) : option value :=
  match recv c with
  | RecvBlocks => Some u
  | _ => None
  end.

(** The points of control of [Clear]:
    [for len(ch) != 0 { <-ch }]. *)
Inductive pc : Type :=
| AtTest        (* about to evaluate [len(ch) != 0] *)
| AtReceive     (* about to evaluate [<-ch] *)
| Returned.

(** A call of [Clear] in progress: the channel, where the call is, and the
    items it has received and dropped so far. *)
Record config : Type := Config {
  ch : chan;
  at_ : pc;
  dropped : list value
}.

Definition start (c : chan) : config := Config c AtTest [].

(** Who takes the next step: the call of [Clear] itself; the producer
    sending an update into the buffer, handing it over to the call of
    [Clear] waiting at its receive, or handing it over to another consumer
    that waits; another consumer receiving a buffered update; or the
    producer closing the channel. *)
Inductive actor : Type :=
| Self
| Producer (u : value)
| HandOver (u : value)
| Rendezvous (u : value)
| Consumer
| Closer.

(** One atomic step; [None] when the actor cannot take a step now (it
    waits, it would panic, or the call has returned). *)
Definition step (a : actor) (k : config) : option config :=
  match a with
  | Self =>
      match at_ k with
      | AtTest =>
          if negb (len (ch k) =? 0) then Some (Config (ch k) AtReceive (dropped k))
          else Some (Config (ch k) Returned (dropped k))
      | AtReceive =>
          match recv (ch k) with
          | Received u c' => Some (Config c' AtTest (dropped k ++ [u]))
          | EndOfStream => Some (Config (ch k) AtTest (dropped k))
          | RecvBlocks => None
          end
      | Returned => None
      end
  | Producer u =>
      match send u (ch k) with
      | Sent c' => Some (Config c' (at_ k) (dropped k))
      | _ => None
      end
  | HandOver u =>
      match at_ k, handOver u (ch k) with
      | AtReceive, Some u' => Some (Config (ch k) AtTest (dropped k ++ [u']))
      | _, _ => None
      end
  | Rendezvous u =>
      match handOver u (ch k) with
      | Some _ => Some k
      | None => None
      end
  | Consumer =>
      match recv (ch k) with
      | Received _ c' => Some (Config c' (at_ k) (dropped k))
      | _ => None
      end
  | Closer =>
      if closed (ch k) then None
      else Some (Config (Chan (buf (ch k)) (cap (ch k)) true) (at_ k) (dropped k))
  end.

(** A schedule: the actors in the order they step. *)
Fixpoint run (sched : list actor) (k : config) : option config :=
  match sched with
  | [] => Some k
  | a :: rest =>
      match step a k with
      | Some k' => run rest k'
      | None => None
      end
  end.

(** [Clear] with nobody else at the channel, run to its return. *)
Definition alone (c : chan) : list actor :=
  repeat Self (2 * List.length (buf c) + 1).

(** A producer that refills the buffer each time [Clear] has taken an item
    out, for [n] rounds. *)
Fixpoint feeding (u : value) (n : nat) : list actor :=
  match n with
  | O => []
  | S n' => Self :: Self :: Producer u :: feeding u n'
  end.

End Chan.

(** ** Decoding the values of this package *)

Module Decode.

Import Json.

(** The member that decides a field: the value of the last member whose key
    the decoder matches with the field of Go name [name], if there is one. *)
Fixpoint lastValue (fields : list fieldDecl) (name : string)
    (members : list (string * json)) : option json :=
  match members with
  | [] => None
  | (key, x) :: rest =>
      match lastValue fields name rest with
      | Some y => Some y
      | None =>
          match findField fields key with
          | Some f => if String.eqb (f_name f) name then Some x else None
          | None => None
          end
      end
  end.

Definition isNull (j : json) : bool :=
  match j with
  | JNull => true
  | _ => false
  end.

(** A key is populated in an object when the member that decides its field
    carries a value other than [null]. *)
Definition populated (fields : list fieldDecl) (name : string)
    (members : list (string * json)) : bool :=
  match lastValue fields name members with
  | Some x => negb (isNull x)
  | None => false
  end.

Definition isSome {A : Type} (o : option A) : bool :=
  match o with
  | Some _ => true
  | None => false
  end.

(** [json.Unmarshal(data, &v)] into a fresh variable of a struct type. *)
Definition decode (name : string) (data : json) : value * option error :=
  Unmarshal data (TStruct name) (zero (TStruct name)).

Definition decodeUpdate : json -> value * option error := decode "Update".
Definition decodeMessage : json -> value * option error := decode "Message".
Definition decodeAPIResponse : json -> value * option error := decode "APIResponse".

End Decode.

(** ** [Update] *)

Module Update.

Import Json Decode.

(** The optional sub-payloads, in the order of the declaration. *)
Definition subPayloads : list string :=
  [ "Message"; "EditedMessage"; "ChannelPost"; "EditedChannelPost";
    "InlineQuery"; "ChosenInlineResult"; "CallbackQuery" ].

Definition UpdateID (u : value) : Z := intField "UpdateID" u.
Definition Message (u : value) : ptr := ptrField "Message" u.
Definition EditedMessage (u : value) : ptr := ptrField "EditedMessage" u.

(** Which of the sub-payloads an update exposes (non-nil), in that order. *)
Definition exposed (u : value) : list bool :=
  map (fun name => isSome (ptrField name u)) subPayloads.

(** Which of the sub-payload keys an object populates, in that order. *)
Definition populatedKeys (members : list (string * json)) : list bool :=
  map (fun name => populated Update_fields name members) subPayloads.

(** An identifier that fits the field: an integer literal in the range of
    [int], or [null], which leaves the field as it is. *)
Definition wellTypedInt (x : json) : bool :=
  match x with
  | JNull => true
  | JNum (NInt z) => intFits z
  | _ => false
  end.

(** An object none of whose keys is decoded into a sub-payload: each key is
    one the decoder has no field for, or the identifier's with a well-typed
    value. *)
Definition noKnownSubPayload (members : list (string * json)) : bool :=
  forallb (fun kx =>
             match findField Update_fields (fst kx) with
             | None => true
             | Some f => String.eqb (f_name f) "UpdateID" && wellTypedInt (snd kx)
             end) members.

(** The identifier an object gives: that of its last identifier member that
    is not [null]; [id0] when it has none. *)
Fixpoint givenID (id0 : Z) (members : list (string * json)) : Z :=
  match members with
  | [] => id0
  | (key, x) :: rest =>
      match findField Update_fields key, x with
      | Some f, JNum (NInt z) =>
          if String.eqb (f_name f) "UpdateID" then givenID z rest else givenID id0 rest
      | _, _ => givenID id0 rest
      end
  end.

End Update.

(** ** Words of the specification *)

Module Spec.

(** White space as [unicode.IsSpace] has it within ASCII: tab, line feed,
    vertical tab, form feed, carriage return and space. *)
Definition isSpace (c : ascii) : bool :=
  let n := N_of_ascii c in ((9 <=? n) && (n <=? 13) || (n =? 32))%N.

(** The text up to the first character that [stop] holds of. *)
Fixpoint upTo (stop : ascii -> bool) (s : string) : string :=
  match s with
  | EmptyString => EmptyString
  | String c s' => if stop c then EmptyString else String c (upTo stop s')
  end.

(** The first token of a text delimited by white space, and the first token
    delimited by the space character alone. *)
Definition firstWhitespaceToken (s : string) : string := upTo isSpace s.
Definition firstSpaceToken (s : string) : string := upTo (Ascii.eqb " ") s.

(** The discard never takes more items than were buffered when it was
    called, whoever else is at the channel. *)
Definition clearBounded : Prop :=
  forall (c : Chan.chan) (sched : list Chan.actor) (k : Chan.config),
    Chan.run sched (Chan.start c) = Some k ->
    (List.length (Chan.dropped k) <= List.length (Chan.buf c))%nat.

(** The discard never waits: until it has returned it can always take its
    next step, whoever else is at the channel. *)
Definition clearNeverBlocks : Prop :=
  forall (c : Chan.chan) (sched : list Chan.actor) (k : Chan.config),
    Chan.run sched (Chan.start c) = Some k ->
    Chan.at_ k <> Chan.Returned ->
    Chan.step Chan.Self k <> None.

End Spec.

(** ** [User] *)

Module User.

(** [String] displays a simple text version of a user: the username, else
    the first name, followed by a space and the last name if there is one.
    The receiver is a pointer; a nil one panics at [u.UserName]. *)
Definition String_ (u : ptr) : outcome string :=
  match u with
  | None => Panic NilDereference
  | Some v =>
      if negb (String.eqb (stringField "UserName" v) "") then
        Ret (stringField "UserName" v)
      else
        let name := stringField "FirstName" v in
        let name := if negb (String.eqb (stringField "LastName" v) "")
                    then name ++ " " ++ stringField "LastName" v
                    else name in
        Ret name
  end.

(** A user with the given names and identifier 0. *)
Definition named (first last username : string) : value :=
  VStruct [ ("ID", VInt 0); ("FirstName", VString first);
            ("LastName", VString last); ("UserName", VString username) ].

End User.

(** ** [ChatMember] *)

Definition ChatMember_fields : list fieldDecl :=
  [ Field "User" (TPtr (TStruct "User")) "user";
    Field "Status" TString "status" ].

Module ChatMember.

Definition Status (chat : value) : string := stringField "Status" chat.

(** [IsCreator] returns if the ChatMember was the creator of the chat. *)
Definition IsCreator (chat : value) : bool := String.eqb (Status chat) "creator".

(** [IsAdministrator] returns if the ChatMember is a chat administrator. *)
Definition IsAdministrator (chat : value) : bool :=
  String.eqb (Status chat) "administrator".

(** [IsMember] returns if the ChatMember is a current member of the chat. *)
Definition IsMember (chat : value) : bool := String.eqb (Status chat) "member".

(** [HasLeft] returns if the ChatMember left the chat. *)
Definition HasLeft (chat : value) : bool := String.eqb (Status chat) "left".

(** [WasKicked] returns if the ChatMember was kicked from the chat. *)
Definition WasKicked (chat : value) : bool := String.eqb (Status chat) "kicked".

Definition answers (chat : value) : list bool :=
  [ IsCreator chat; IsAdministrator chat; IsMember chat; HasLeft chat; WasKicked chat ].

(** A chat member of the given status, with no user. *)
Definition ofStatus (status : string) : value :=
  VStruct [ ("User", VPtr None); ("Status", VString status) ].

End ChatMember.

(** ** Texts and their parts *)

Module Words.

(** Every byte of the text satisfies [p]. *)
Fixpoint all (p : ascii -> bool) (s : string) : bool :=
  match s with
  | EmptyString => true
  | String c s' => p c && all p s'
  end.

(** The text after the first character that [stop] holds of; empty when
    there is none. *)
Fixpoint after (stop : ascii -> bool) (s : string) : string :=
  match s with
  | EmptyString => EmptyString
  | String c s' => if stop c then s' else after stop s'
  end.

Definition isSpaceByte (c : ascii) : bool := Ascii.eqb " " c.
Definition isAt (c : ascii) : bool := Ascii.eqb "@" c.

(** Neither a space nor an at sign. *)
Definition nameByte (c : ascii) : bool := negb (isSpaceByte c) && negb (isAt c).

(** The text of a command message as a user writes it: the marker, the
    command name, a bot mention if any, and the arguments, if any, after one
    space. *)
Definition commandText (name : string) (bot args : option string) : string :=
  "/" ++ name
      ++ match bot with
         | Some b => "@" ++ b
         | None => ""
         end
      ++ match args with
         | Some a => " " ++ a
         | None => ""
         end.

End Words.

(** ** Schedules without another consumer *)

Module Sched.

(** No actor of the schedule but the call of [Clear] receives. *)
Definition soleConsumer (sched : list Chan.actor) : bool :=
  forallb (fun a => match a with
                    | Chan.Consumer | Chan.Rendezvous _ => false
                    | _ => true
                    end) sched.

(** The updates that the producer's steps of the schedule send, in order. *)
Fixpoint produced (sched : list Chan.actor) : list value :=
  match sched with
  | [] => []
  | Chan.Producer u :: rest => u :: produced rest
  | Chan.HandOver u :: rest => u :: produced rest
  | _ :: rest => produced rest
  end.

(** No actor of the schedule sends. *)
Definition noProducer (sched : list Chan.actor) : bool :=
  forallb (fun a => match a with
                    | Chan.Producer _ | Chan.HandOver _ | Chan.Rendezvous _ => false
                    | _ => true
                    end) sched.

(** The steps of the schedule that the call of [Clear] takes itself. *)
Definition selfSteps (sched : list Chan.actor) : nat :=
  List.length (filter (fun a => match a with
                                | Chan.Self => true
                                | _ => false
                                end) sched).

(** The steps that [Clear] can still take itself while nobody sends: two
    for each item buffered and one to return. *)
Definition stepsLeft (k : Chan.config) : nat :=
  match Chan.at_ k with
  | Chan.AtTest => 2 * List.length (Chan.buf (Chan.ch k)) + 1
  | Chan.AtReceive => 2 * Nat.max (List.length (Chan.buf (Chan.ch k))) 1
  | Chan.Returned => 0
  end.

(** Once [Clear] has returned, having seen the buffer empty, the buffer is
    empty. *)
Definition drained (k : Chan.config) : Prop :=
  Chan.at_ k = Chan.Returned -> Chan.buf (Chan.ch k) = [].

(** At its receive, [Clear] finds the item whose presence it has tested. *)
Definition tested (k : Chan.config) : Prop :=
  Chan.at_ k = Chan.AtReceive -> Chan.buf (Chan.ch k) <> [].

End Sched.

(** ** Members and fields *)

Module Members.

Import Json Decode.

(** The type [indirect] arrives at: the type under all pointers. *)
Fixpoint baseType (t : gotype) : gotype :=
  match t with
  | TPtr t' => baseType t'
  | _ => t
  end.

(** Whether a member's value is of a kind that the decoder stores at a
    field of type [t]: [null] anywhere, anything in a [json.RawMessage], a
    boolean, string, number in range, array or object where the type under
    the pointers is [bool], [string], an integer or float type, a slice or
    a struct. *)
Definition fits (t : gotype) (j : json) : bool :=
  match j, baseType t with
  | JNull, _ => true
  | _, TRawMessage => true
  | JBool _, TBool => true
  | JStr _, TString => true
  | JNum (NInt z), (TInt | TInt64) => intFits z
  | JNum n, TFloat64 => floatFits n
  | JArr _, TSlice _ => true
  | JObj _, TStruct _ => true
  | _, _ => false
  end.

(** What a member's value leaves at a field of type [t], where that does
    not depend on what the field held before: a boolean, a string or a
    number that fits the type, anything at a [json.RawMessage], and [null]
    at a pointer or a slice. *)
Definition stored (t : gotype) (x : json) : option value :=
  match t, x with
  | TRawMessage, _ => Some (VRaw (Some x))
  | TBool, JBool b => Some (VBool b)
  | TString, JStr s => Some (VString s)
  | (TInt | TInt64), JNum (NInt z) => if intFits z then Some (VInt z) else None
  | TFloat64, JNum n => if floatFits n then Some (VFloat n) else None
  | TPtr _, JNull => Some (VPtr None)
  | TSlice _, JNull => Some (VSlice None)
  | _, _ => None
  end.

(** A list of strings without a repetition. *)
Fixpoint distinct (l : list string) : bool :=
  match l with
  | [] => true
  | x :: l' => negb (existsb (String.eqb x) l') && distinct l'
  end.

(** The Go names of the fields are distinct, and so are the names in their
    tags, also under case folding. *)
Definition wellDeclared (fields : list fieldDecl) : bool :=
  distinct (map f_name fields) && distinct (map (fun f => foldName (f_tag f)) fields).

End Members.

(** ** What members settle *)

Module Settle.

Import Json.

(** The types whose values a member sets outright or leaves alone. *)
Definition scalar (t : gotype) : bool :=
  match t with
  | TBool | TInt | TInt64 | TFloat64 | TString | TRawMessage => true
  | _ => false
  end.

(** What the members of an object leave at a field of Go name [name] and
    scalar type [t]: what the last member that is decoded into the field
    and whose value fits the type stores there; nothing when there is no
    such member. *)
Fixpoint settled (fields : list fieldDecl) (name : string) (t : gotype)
    (members : list (string * json)) : option value :=
  match members with
  | [] => None
  | (key, x) :: rest =>
      match settled fields name t rest with
      | Some w => Some w
      | None =>
          match findField fields key with
          | Some f => if String.eqb (f_name f) name then Members.stored t x else None
          | None => None
          end
      end
  end.

(** The first error of a list of outcomes. *)
Fixpoint firstError (l : list (option error)) : option error :=
  match l with
  | [] => None
  | Some e :: _ => Some e
  | None :: rest => firstError rest
  end.

End Settle.

(** ** The discard as the specification states it without a producer *)

Module Stated.

(** With no producer at the channel, the discard never waits. *)
Definition clearSucceeds : Prop :=
  forall (c : Chan.chan) (sched : list Chan.actor) (k : Chan.config),
    Sched.noProducer sched = true ->
    Chan.run sched (Chan.start c) = Some k ->
    Chan.at_ k <> Chan.Returned ->
    Chan.step Chan.Self k <> None.

(** With no producer at the channel, the discard has dropped every item
    that was buffered when it was called. *)
Definition clearDropsAll : Prop :=
  forall (c : Chan.chan) (sched : list Chan.actor) (k : Chan.config),
    Sched.noProducer sched = true ->
    Chan.run sched (Chan.start c) = Some k ->
    Chan.at_ k = Chan.Returned ->
    Chan.dropped k = Chan.buf c.

End Stated.

(** * Properties *)

(** ** The predicates of [Chat] *)

Lemma Chat_kind_cases (c : value) :
  let kinds := [ Chat.IsPrivate c; Chat.IsGroup c; Chat.IsSuperGroup c; Chat.IsChannel c ] in
  kinds = [true; false; false; false] \/ kinds = [false; true; false; false] \/
  kinds = [false; false; true; false] \/ kinds = [false; false; false; true] \/
  kinds = [false; false; false; false].
Proof.
  unfold Chat.IsPrivate, Chat.IsGroup, Chat.IsSuperGroup, Chat.IsChannel.
  destruct (String.eqb_spec (Chat.Type_ c) "private") as [H | _];
    [rewrite H; now left |].
  destruct (String.eqb_spec (Chat.Type_ c) "group") as [H | _];
    [rewrite H; now right; left |].
  destruct (String.eqb_spec (Chat.Type_ c) "supergroup") as [H | _];
    [rewrite H; now right; right; left |].
  destruct (String.eqb_spec (Chat.Type_ c) "channel") as [H | _];
    [now right; right; right; left |].
  now right; right; right; right.
Qed.

(** C9: for every Chat value at most one of [IsPrivate], [IsGroup],
    [IsSuperGroup] and [IsChannel] returns true, and all four return false
    for a Chat whose [Type] is none of "private", "group", "supergroup" and
    "channel". *)
Theorem Chat_predicates_exclusive (c : value) :
  (countTrue
     [ Chat.IsPrivate c; Chat.IsGroup c; Chat.IsSuperGroup c; Chat.IsChannel c ]
   <= 1)%nat /\
  (Chat.Type_ c <> "private" -> Chat.Type_ c <> "group" ->
   Chat.Type_ c <> "supergroup" -> Chat.Type_ c <> "channel" ->
   Chat.IsPrivate c = false /\ Chat.IsGroup c = false /\
   Chat.IsSuperGroup c = false /\ Chat.IsChannel c = false).
Proof.
  split.
  - destruct (Chat_kind_cases c) as [H | [H | [H | [H | H]]]];
      rewrite H; vm_compute; lia.
  - unfold Chat.IsPrivate, Chat.IsGroup, Chat.IsSuperGroup, Chat.IsChannel.
    intros Hp Hg Hs Hc.
    repeat split; now apply String.eqb_neq.
Qed.

Lemma Chat_predicates_exclusive_witness :
  (countTrue
     [ Chat.IsPrivate (Chat.ofType "bot"); Chat.IsGroup (Chat.ofType "bot");
       Chat.IsSuperGroup (Chat.ofType "bot"); Chat.IsChannel (Chat.ofType "bot") ] <= 1)%nat /\
  Chat.IsPrivate (Chat.ofType "bot") = false /\ Chat.IsGroup (Chat.ofType "bot") = false /\
  Chat.IsSuperGroup (Chat.ofType "bot") = false /\ Chat.IsChannel (Chat.ofType "bot") = false.
Proof.
  destruct (Chat_predicates_exclusive (Chat.ofType "bot")) as [Hcount Hnone].
  split; [exact Hcount |].
  apply Hnone; vm_compute; discriminate.
Defined.

(** ** Go strings *)

Section SingleByteSeparator.

Import GoString.

Variable a : ascii.

Local Abbreviation sep := (String a EmptyString).

Lemma prefix_sep (c : ascii) (s : string) :
  String.prefix sep (String c s) = Ascii.eqb a c.
Proof.
  simpl.
  destruct (ascii_dec a c) as [-> | Hne].
  - rewrite Ascii.eqb_refl. now destruct s.
  - symmetry; now apply Ascii.eqb_neq.
Qed.

Lemma substring_0_cons (n : nat) (c : ascii) (s : string) :
  String.substring 0 (S n) (String c s) = String c (String.substring 0 n s).
Proof. reflexivity. Qed.

(** [Index] finds the end of the text before the first separator, or
    finds nothing when the text has no separator. *)
Lemma index_from_sep (s : string) (i : Z) :
  let m := index_from i s sep in
  (m = -1 /\ Spec.upTo (Ascii.eqb a) s = s) \/
  (i <= m < i + len s /\
   String.substring 0 (Z.to_nat (m - i)) s = Spec.upTo (Ascii.eqb a) s).
Proof.
  revert i; induction s as [| c s IH]; intros i; cbn zeta.
  - left; split; reflexivity.
  - cbn [index_from]. rewrite prefix_sep. cbn [Spec.upTo].
    destruct (Ascii.eqb a c) eqn:Hac.
    + right; split.
      * unfold len; cbn [String.length]; lia.
      * now rewrite Z.sub_diag.
    + destruct (IH (i + 1)) as [[Hm Hup] | [Hr Hsub]].
      * left; split; [exact Hm | now rewrite Hup].
      * right; split.
        -- unfold len in *; cbn [String.length]; lia.
        -- replace (Z.to_nat (index_from (i + 1) s sep - i))
             with (S (Z.to_nat (index_from (i + 1) s sep - (i + 1)))) by lia.
           rewrite substring_0_cons. now rewrite Hsub.
Qed.

Lemma Index_sep (s : string) :
  (Index s sep = -1 /\ Spec.upTo (Ascii.eqb a) s = s) \/
  (0 <= Index s sep < len s /\
   slice_to s (Index s sep) = Ret (Spec.upTo (Ascii.eqb a) s)).
Proof.
  unfold Index.
  destruct (index_from_sep s 0) as [H | [Hr Hsub]]; [now left | right].
  split; [lia |].
  unfold slice_to, slice.
  replace ((0 <=? 0) && (0 <=? index_from 0 s sep) && (index_from 0 s sep <=? len s))
    with true by (symmetry; rewrite !andb_true_iff, !Z.leb_le; lia).
  rewrite Z.sub_0_r in *. change (Z.to_nat 0) with 0%nat. now rewrite Hsub.
Qed.

End SingleByteSeparator.

Lemma substring_all (s : string) : String.substring 0 (String.length s) s = s.
Proof. induction s as [| c s IH]; [reflexivity | simpl; now rewrite IH]. Qed.

(** [s[1:]] of a text that has a first byte is the rest of it. *)
Lemma slice_from_1 (c : ascii) (s : string) :
  GoString.slice_from (String c s) 1 = Ret s.
Proof.
  unfold GoString.slice_from, GoString.slice, GoString.len.
  cbn [String.length].
  replace ((0 <=? 1) && (1 <=? Z.of_nat (S (String.length s)))
           && (Z.of_nat (S (String.length s)) <=? Z.of_nat (S (String.length s))))
    with true by (symmetry; rewrite !andb_true_iff, !Z.leb_le; lia).
  replace (Z.to_nat (Z.of_nat (S (String.length s)) - 1)) with (String.length s) by lia.
  change (Z.to_nat 1) with 1%nat.
  cbn [String.substring]. now rewrite substring_all.
Qed.

(** The first of the substrings that [SplitN(text, " ", 2)] gives for a
    text that is not empty is the text up to its first space. *)
Lemma SplitN_first (c : ascii) (s : string) :
  exists rest,
    GoString.SplitN (String c s) " " 2
    = Spec.firstSpaceToken (String c s) :: rest.
Proof.
  unfold GoString.SplitN.
  change (2 =? 0) with false. cbv iota.
  replace (2 >? GoString.len (String c s) + 1) with false
    by (symmetry; unfold GoString.len; cbn [String.length];
        rewrite Z.gtb_ltb; apply Z.ltb_ge; lia).
  change (Z.to_nat (2 - 1)) with 1%nat. cbn [GoString.splitLoop].
  destruct (Index_sep " " (String c s)) as [[Hm Hup] | [Hr Hto]].
  - rewrite Hm. change (-1 <? 0) with true. cbv iota.
    exists []. unfold Spec.firstSpaceToken. now rewrite Hup.
  - replace (GoString.Index (String c s) " " <? 0) with false
      by (symmetry; apply Z.ltb_ge; lia).
    rewrite Hto.
    destruct (GoString.slice_from (String c s) _) as [rest | p] eqn:Hfrom.
    + now exists [rest].
    + exfalso. revert Hfrom.
      unfold GoString.slice_from, GoString.slice.
      replace ((0 <=? GoString.Index (String c s) " " + GoString.len " ")
               && (GoString.Index (String c s) " " + GoString.len " "
                   <=? GoString.len (String c s))
               && (GoString.len (String c s) <=? GoString.len (String c s)))
        with true; [discriminate |].
      symmetry; rewrite !andb_true_iff, !Z.leb_le.
      change (GoString.len " ") with 1. lia.
Qed.

(** ** The command accessors of [Message] *)

(** The accessors read nothing of a message but its text. *)
Lemma Text_withText (text : string) :
  Message.Text (Some (Message.withText text)) = Ret text.
Proof. reflexivity. Qed.

(** C5: for a Message whose text is "/start@mybot hello world",
    [IsCommand] returns true, [Command] returns "start" and
    [CommandArguments] returns "hello world"; for a Message whose text is
    "hello", [IsCommand] returns false and [Command] returns the empty
    string. *)
Theorem command_parsing_examples (m m' : value) :
  stringField "Text" m = "/start@mybot hello world" ->
  stringField "Text" m' = "hello" ->
  Message.IsCommand (Some m) = Ret true /\
  Message.Command (Some m) = Ret "start" /\
  Message.CommandArguments (Some m) = Ret "hello world" /\
  Message.IsCommand (Some m') = Ret false /\
  Message.Command (Some m') = Ret "".
Proof.
  intros H H'.
  unfold Message.Command, Message.CommandArguments, Message.IsCommand, Message.Text.
  rewrite H, H'.
  repeat split; reflexivity.
Qed.

Lemma command_parsing_examples_witness :
  Message.IsCommand (Some (Message.withText "/start@mybot hello world")) = Ret true /\
  Message.Command (Some (Message.withText "/start@mybot hello world")) = Ret "start" /\
  Message.CommandArguments (Some (Message.withText "/start@mybot hello world"))
    = Ret "hello world" /\
  Message.IsCommand (Some (Message.withText "hello")) = Ret false /\
  Message.Command (Some (Message.withText "hello")) = Ret "".
Proof.
  apply (command_parsing_examples (Message.withText "/start@mybot hello world")
                                  (Message.withText "hello")); reflexivity.
Defined.

(** A message is a command exactly when its text begins with the marker. *)
Lemma IsCommand_text (m : value) :
  Message.IsCommand (Some m)
  = Ret (match stringField "Text" m with
         | String c _ => Ascii.eqb c "/"
         | EmptyString => false
         end).
Proof.
  unfold Message.IsCommand, Message.Text; cbn [bind].
  now destruct (stringField "Text" m).
Qed.

Lemma not_command (m : value) :
  Message.IsCommand (Some m) = Ret false ->
  Message.Command (Some m) = Ret "" /\ Message.CommandArguments (Some m) = Ret "".
Proof.
  intros H. unfold Message.Command, Message.CommandArguments.
  now rewrite H.
Qed.

(** The command of a command message is cut out of its first
    space-delimited token: what follows the marker, up to the first at sign
    if there is one.  It is never a panic. *)
Lemma Command_of_token (m : value) (rest : string) :
  stringField "Text" m = String "/" rest ->
  exists tail,
    Spec.firstSpaceToken (String "/" rest) = String "/" tail /\
    Message.Command (Some m) = Ret (Spec.upTo (Ascii.eqb "@") tail).
Proof.
  intros Htext.
  exists (Spec.upTo (Ascii.eqb " ") rest). split; [reflexivity |].
  unfold Message.Command. rewrite IsCommand_text, Htext.
  cbn [bind Ascii.eqb Bool.eqb negb Message.Text]. rewrite Htext.
  destruct (SplitN_first "/" rest) as [others ->].
  cbn [Message.elem nth_error bind].
  change (Spec.firstSpaceToken (String "/" rest))
    with (String "/" (Spec.upTo (Ascii.eqb " ") rest)).
  rewrite slice_from_1. cbn [bind].
  destruct (Index_sep "@" (Spec.upTo (Ascii.eqb " ") rest)) as [[Hm Hup] | [Hr Hto]].
  - rewrite Hm. cbn. now rewrite Hup.
  - replace (GoString.Index (Spec.upTo (Ascii.eqb " ") rest) "@" =? -1) with false
      by (symmetry; apply Z.eqb_neq; lia).
    exact Hto.
Qed.

(** C4, as the code has it: the command accessors are methods on the message
    pointer and read its text without a nil check.  For an update whose
    message is absent they panic with a nil dereference; it is for an update
    whose message is present with a text that is empty or does not begin
    with the marker that [IsCommand] returns false and [Command] and
    [CommandArguments] return the empty string. *)
Theorem command_accessors_by_message (u : value) :
  (Update.Message u = None ->
   Message.IsCommand (Update.Message u) = Panic NilDereference /\
   Message.Command (Update.Message u) = Panic NilDereference /\
   Message.CommandArguments (Update.Message u) = Panic NilDereference) /\
  (forall m : value,
     Update.Message u = Some m ->
     (forall rest, stringField "Text" m <> String "/" rest) ->
     Message.IsCommand (Update.Message u) = Ret false /\
     Message.Command (Update.Message u) = Ret "" /\
     Message.CommandArguments (Update.Message u) = Ret "").
Proof.
  split.
  - intros ->. repeat split; reflexivity.
  - intros m -> Htext.
    assert (H : Message.IsCommand (Some m) = Ret false).
    { rewrite IsCommand_text.
      destruct (stringField "Text" m) as [| c rest]; [reflexivity |].
      destruct (Ascii.eqb_spec c "/") as [-> | _]; [| reflexivity].
      now destruct (Htext rest). }
    split; [exact H | now apply not_command].
Qed.

(** C4, as stated, fails on the update decoded from [{"update_id": 1}]:
    it carries no message, and the accessors panic. *)
Lemma command_accessors_panic_without_message :
  let u := fst (Decode.decodeUpdate (JObj [("update_id", JNum (NInt 1))])) in
  Update.Message u = None /\
  Message.IsCommand (Update.Message u) <> Ret false /\
  Message.Command (Update.Message u) <> Ret "" /\
  Message.IsCommand (Update.Message u) = Panic NilDereference /\
  Message.Command (Update.Message u) = Panic NilDereference.
Proof. vm_compute. repeat split; discriminate. Qed.

Lemma command_accessors_by_message_witness :
  let u := fst (Decode.decodeUpdate (JObj [("update_id", JNum (NInt 1))])) in
  let u' := fst (Decode.decodeUpdate
                   (JObj [("update_id", JNum (NInt 2));
                          ("message", JObj [("text", JStr "hello")])])) in
  (Update.Message u = None /\
   Message.IsCommand (Update.Message u) = Panic NilDereference /\
   Message.Command (Update.Message u) = Panic NilDereference /\
   Message.CommandArguments (Update.Message u) = Panic NilDereference) /\
  (Message.IsCommand (Update.Message u') = Ret false /\
   Message.Command (Update.Message u') = Ret "" /\
   Message.CommandArguments (Update.Message u') = Ret "").
Proof.
  intros u u'. split.
  - split; [reflexivity |].
    apply (proj1 (command_accessors_by_message u)). reflexivity.
  - destruct (Update.Message u') as [m |] eqn:Hm; [| discriminate Hm].
    rewrite <- Hm.
    apply (proj2 (command_accessors_by_message u') m Hm).
    intros rest. vm_compute in Hm. injection Hm as <-. vm_compute. discriminate.
Defined.

(** C10, as the code has it: [IsCommand] returning true does not imply a
    command name that is not empty.  For a message whose first token
    delimited by the space character (which is what [Command] splits at) is
    "/" or begins with "/@", that is also for the text "/" itself,
    [IsCommand] returns true while [Command] returns the empty string. *)
Theorem command_without_name (m : value) :
  let token := Spec.firstSpaceToken (stringField "Text" m) in
  token = "/" \/ (exists bot, token = String "/" (String "@" bot)) ->
  Message.IsCommand (Some m) = Ret true /\ Message.Command (Some m) = Ret "".
Proof.
  intros token Htoken.
  assert (Hrest : exists rest, stringField "Text" m = String "/" rest).
  { subst token. unfold Spec.firstSpaceToken in Htoken.
    destruct (stringField "Text" m) as [| c rest]; cbn [Spec.upTo] in Htoken.
    - destruct Htoken as [H | [bot H]]; discriminate H.
    - destruct (Ascii.eqb " " c).
      + destruct Htoken as [H | [bot H]]; discriminate H.
      + exists rest.
        destruct Htoken as [H | [bot H]]; injection H as <- _; reflexivity. }
  destruct Hrest as [rest Htext].
  split.
  - rewrite IsCommand_text, Htext. reflexivity.
  - destruct (Command_of_token m rest Htext) as (tail & Htail & ->).
    subst token. rewrite Htext, Htail in Htoken.
    destruct Htoken as [H | [bot H]]; injection H as ->; [reflexivity |].
    cbn [Spec.upTo]. now rewrite Ascii.eqb_refl.
Qed.

Lemma command_without_name_witness :
  Spec.firstSpaceToken (stringField "Text" (Message.withText "/@mybot hello"))
  = String "/" (String "@" "mybot") /\
  Message.IsCommand (Some (Message.withText "/")) = Ret true /\
  Message.Command (Some (Message.withText "/")) = Ret "" /\
  Message.IsCommand (Some (Message.withText "/@mybot hello")) = Ret true /\
  Message.Command (Some (Message.withText "/@mybot hello")) = Ret "".
Proof.
  split; [reflexivity |].
  split; [| split].
  - apply (command_without_name (Message.withText "/")). left; reflexivity.
  - apply (command_without_name (Message.withText "/")). left; reflexivity.
  - apply (command_without_name (Message.withText "/@mybot hello")).
    right; exists "mybot"; reflexivity.
Defined.

(** C10, as stated, fails on the text of "/", a tab and "x": its first
    token delimited by white space is "/", yet [Command], which splits at
    the space character only, returns the tab and the "x". *)
Lemma command_after_tab :
  let text := String "/" (String "009" "x") in
  Spec.firstWhitespaceToken text = "/" /\
  Message.IsCommand (Some (Message.withText text)) = Ret true /\
  Message.Command (Some (Message.withText text)) = Ret (String "009" "x") /\
  Message.Command (Some (Message.withText text)) <> Ret "".
Proof. vm_compute. repeat split; discriminate. Qed.

(** ** [Clear] on the updates channel *)

Section ClearRuns.

Import Chan.

Lemma run_app (s1 s2 : list actor) (k : config) :
  run (s1 ++ s2) k = match run s1 k with
                     | Some k' => run s2 k'
                     | None => None
                     end.
Proof.
  revert k; induction s1 as [| a s1 IH]; intros k; [reflexivity |].
  cbn [app run]. now destruct (step a k).
Qed.

(** Left alone, [Clear] tests and receives once for each buffered item,
    tests once more and returns. *)
Lemma run_alone (b : list value) (n : nat) (cl : bool) (d : list value) :
  run (repeat Self (2 * List.length b + 1)) (Config (Chan b n cl) AtTest d)
  = Some (Config (Chan [] n cl) Returned (d ++ b)).
Proof.
  revert d; induction b as [| u b IH]; intros d.
  - cbn. now rewrite app_nil_r.
  - replace (2 * List.length (u :: b) + 1)%nat
      with (S (S (2 * List.length b + 1))) by (cbn [List.length]; lia).
    cbn [repeat run]. unfold step at 1. cbn [at_ ch]. unfold len.
    cbn [buf List.length].
    replace (negb (Z.of_nat (S (List.length b)) =? 0)) with true
      by (symmetry; apply negb_true_iff, Z.eqb_neq; lia).
    unfold step at 1. cbn [at_ ch recv buf cap closed dropped].
    rewrite IH. now rewrite <- app_assoc.
Qed.

(** Once [Clear] has returned it takes no further step, whatever the
    others do. *)
Lemma returned_is_final (sched : list actor) (k k' : config) :
  at_ k = Returned -> run sched k = Some k' ->
  at_ k' = Returned /\ dropped k' = dropped k.
Proof.
  revert k; induction sched as [| a sched IH]; intros k Hk Hrun.
  - injection Hrun as <-. now split.
  - cbn [run] in Hrun.
    destruct (step a k) as [k1 |] eqn:Hstep; [| discriminate Hrun].
    assert (H1 : at_ k1 = Returned /\ dropped k1 = dropped k).
    { destruct a; cbn [step] in Hstep.
      - rewrite Hk in Hstep. discriminate Hstep.
      - destruct (send u (ch k)); try discriminate Hstep.
        injection Hstep as <-. now split.
      - rewrite Hk in Hstep. discriminate Hstep.
      - destruct (handOver u (ch k)); try discriminate Hstep.
        injection Hstep as <-. now split.
      - destruct (recv (ch k)); try discriminate Hstep.
        injection Hstep as <-. now split.
      - destruct (closed (ch k)); try discriminate Hstep.
        injection Hstep as <-. now split. }
    destruct H1 as [Hat Hd].
    destruct (IH k1 Hat Hrun) as [Hat' Hd'].
    split; [exact Hat' | congruence].
Qed.

(** With a producer that refills the buffer after each receive, [Clear]
    is back at its test with one more item dropped after every round. *)
Lemma run_feeding (u : value) (rounds : nat) :
  forall (c : chan) (d : list value),
    buf c <> [] -> closed c = false -> (List.length (buf c) <= cap c)%nat ->
    exists k,
      run (feeding u rounds) (Config c AtTest d) = Some k /\
      at_ k = AtTest /\
      List.length (dropped k) = (List.length d + rounds)%nat.
Proof.
  induction rounds as [| rounds IH]; intros c d Hne Hopen Hcap.
  - exists (Config c AtTest d). cbn. repeat split; lia.
  - destruct c as [b n cl]; cbn [buf cap closed] in *; subst cl.
    destruct b as [| x b]; [now destruct Hne |].
    cbn [feeding run]. unfold step at 1. cbn [at_ ch]. unfold len.
    cbn [buf List.length].
    replace (negb (Z.of_nat (S (List.length b)) =? 0)) with true
      by (symmetry; apply negb_true_iff, Z.eqb_neq; lia).
    unfold step at 1. cbn [at_ ch recv buf cap closed dropped].
    unfold step at 1. unfold send. cbn [at_ ch buf cap closed dropped].
    cbn [List.length] in Hcap.
    replace (List.length b <? n)%nat with true
      by (symmetry; apply Nat.ltb_lt; lia).
    destruct (IH (Chan (b ++ [u]) n false) (d ++ [x])%list) as (k & Hrun & Hat & Hlen).
    + now destruct b.
    + reflexivity.
    + cbn [buf cap]. rewrite length_app. cbn [List.length]. lia.
    + exists k. repeat split; [exact Hrun | exact Hat |].
      rewrite Hlen, length_app. cbn [List.length]. lia.
Qed.

(** *** With no other consumer *)

Lemma step_sole (a : actor) (k k' : config) :
  Sched.soleConsumer [a] = true -> Sched.tested k -> step a k = Some k' ->
  Sched.tested k' /\
  (dropped k' ++ buf (ch k') = dropped k ++ buf (ch k) ++ Sched.produced [a])%list.
Proof.
  intros Hsole Hk Hstep. unfold Sched.tested in *.
  destruct k as [[b n cl] p d]. cbn [at_ ch buf dropped] in *.
  destruct a as [| u | u | u | |]; try discriminate Hsole; cbn [Sched.produced];
    [| | cbn [step at_ ch] in Hstep; unfold handOver, recv in Hstep;
         cbn [buf closed] in Hstep;
         destruct p; try discriminate Hstep;
         destruct b as [| x b]; [now destruct Hk | discriminate Hstep] |].
  - (* the call itself *)
    destruct p; cbn [step at_ ch dropped] in Hstep; try discriminate Hstep.
    + unfold len in Hstep. cbn [buf] in Hstep.
      destruct b as [| x b]; cbn in Hstep; injection Hstep as <-;
        cbn [at_ ch buf dropped]; rewrite ?app_nil_r; split;
        try reflexivity; try discriminate.
    + destruct b as [| x b]; [now destruct Hk |].
      cbn in Hstep. injection Hstep as <-. cbn [at_ ch buf dropped].
      rewrite app_nil_r, <- app_assoc. split; [discriminate | reflexivity].
  - (* the producer *)
    cbn [step] in Hstep. unfold send in Hstep. cbn [ch closed buf cap] in Hstep.
    destruct cl; [discriminate Hstep |].
    destruct (List.length b <? n)%nat; [| discriminate Hstep].
    injection Hstep as <-. cbn [at_ ch buf dropped]. split; [| reflexivity].
    intros Hp. specialize (Hk Hp). now destruct b.
  - (* the closing *)
    cbn [step ch closed buf cap at_ dropped] in Hstep.
    destruct cl; [discriminate Hstep |].
    injection Hstep as <-. cbn [at_ ch buf dropped]. rewrite app_nil_r.
    split; [exact Hk | reflexivity].
Qed.

Lemma run_sole (sched : list actor) :
  forall k k' : config,
    Sched.soleConsumer sched = true -> Sched.tested k -> run sched k = Some k' ->
    Sched.tested k' /\
    (dropped k' ++ buf (ch k') = dropped k ++ buf (ch k) ++ Sched.produced sched)%list.
Proof.
  induction sched as [| a sched IH]; intros k k' Hsole Hk Hrun.
  - injection Hrun as <-. cbn [Sched.produced]. rewrite app_nil_r. now split.
  - cbn [run] in Hrun.
    destruct (step a k) as [k1 |] eqn:Hstep; [| discriminate Hrun].
    assert (Ha : Sched.soleConsumer [a] = true /\ Sched.soleConsumer sched = true).
    { unfold Sched.soleConsumer in *. cbn [forallb] in *.
      apply andb_true_iff in Hsole as [H1 H2]. now rewrite H1, H2. }
    destruct Ha as [Ha Hrest].
    destruct (step_sole a k k1 Ha Hk Hstep) as [Hk1 Hitems1].
    destruct (IH k1 k' Hrest Hk1 Hrun) as [Hk' Hitems].
    split; [exact Hk' |].
    rewrite Hitems, app_assoc, Hitems1, <- !app_assoc. f_equal. f_equal.
    destruct a; reflexivity.
Qed.

(** *** With no producer *)

Lemma step_quiet (a : actor) (k k' : config) :
  Sched.noProducer [a] = true -> Sched.drained k -> step a k = Some k' ->
  Sched.drained k' /\
  (List.length (dropped k') + List.length (buf (ch k'))
   <= List.length (dropped k) + List.length (buf (ch k)))%nat /\
  (Sched.stepsLeft k' + Sched.selfSteps [a] <= Sched.stepsLeft k)%nat.
Proof.
  intros Hquiet Hk Hstep. unfold Sched.drained in *.
  destruct k as [[b n cl] p d]. cbn [at_ ch buf dropped] in *.
  destruct a as [| u | u | u | |]; try discriminate Hquiet;
    unfold Sched.selfSteps; cbn [filter List.length].
  - (* the call itself *)
    destruct p; cbn [step at_ ch dropped] in Hstep; try discriminate Hstep.
    + unfold len in Hstep. cbn [buf] in Hstep.
      destruct b as [| x b]; cbn in Hstep; injection Hstep as <-;
        unfold Sched.stepsLeft; cbn [at_ ch buf dropped List.length];
        (split; [try discriminate; reflexivity | lia]).
    + unfold recv in Hstep. cbn [buf closed cap] in Hstep.
      destruct b as [| x b].
      * destruct cl; [| discriminate Hstep]. injection Hstep as <-.
        unfold Sched.stepsLeft; cbn [at_ ch buf dropped List.length].
        split; [discriminate | cbn; lia].
      * injection Hstep as <-.
        unfold Sched.stepsLeft; cbn [at_ ch buf dropped List.length].
        rewrite length_app. cbn [List.length].
        split; [discriminate | lia].
  - (* another consumer *)
    cbn [step] in Hstep. unfold recv in Hstep. cbn [ch buf closed cap] in Hstep.
    destruct b as [| x b]; [destruct cl; discriminate Hstep |].
    injection Hstep as <-. unfold Sched.stepsLeft.
    cbn [at_ ch buf dropped List.length].
    split; [intros Hp; specialize (Hk Hp); discriminate Hk |].
    split; [lia | destruct p; lia].
  - (* the closing *)
    cbn [step ch closed buf cap at_ dropped] in Hstep.
    destruct cl; [discriminate Hstep |].
    injection Hstep as <-. unfold Sched.stepsLeft. cbn [at_ ch buf dropped].
    split; [exact Hk | lia].
Qed.

Lemma run_quiet (sched : list actor) :
  forall k k' : config,
    Sched.noProducer sched = true -> Sched.drained k -> run sched k = Some k' ->
    Sched.drained k' /\
    (List.length (dropped k') + List.length (buf (ch k'))
     <= List.length (dropped k) + List.length (buf (ch k)))%nat /\
    (Sched.stepsLeft k' + Sched.selfSteps sched <= Sched.stepsLeft k)%nat.
Proof.
  induction sched as [| a sched IH]; intros k k' Hquiet Hk Hrun.
  - injection Hrun as <-. unfold Sched.selfSteps. cbn. repeat split; [exact Hk | lia | lia].
  - cbn [run] in Hrun.
    destruct (step a k) as [k1 |] eqn:Hstep; [| discriminate Hrun].
    assert (Ha : Sched.noProducer [a] = true /\ Sched.noProducer sched = true).
    { unfold Sched.noProducer in *. cbn [forallb] in *.
      apply andb_true_iff in Hquiet as [H1 H2]. now rewrite H1, H2. }
    destruct Ha as [Ha Hrest].
    destruct (step_quiet a k k1 Ha Hk Hstep) as (Hk1 & Hitems1 & Hsteps1).
    destruct (IH k1 k' Hrest Hk1 Hrun) as (Hk' & Hitems & Hsteps).
    split; [exact Hk' |]. split; [lia |].
    unfold Sched.selfSteps in *. cbn [filter] in *.
    destruct a; cbn [List.length] in *; lia.
Qed.

(** What a receive finds at a channel with nothing buffered. *)
Lemma recv_empty (c : chan) :
  buf c = [] ->
  recv c = (if closed c then EndOfStream else RecvBlocks) /\
  (forall u, handOver u c = if closed c then None else Some u).
Proof.
  intros Hbuf. unfold handOver, recv. rewrite Hbuf.
  now destruct (closed c).
Qed.

(** With no producer in the schedule nothing is sent. *)
Lemma noProducer_produced (sched : list actor) :
  Sched.noProducer sched = true -> Sched.produced sched = [].
Proof.
  induction sched as [| a sched IH]; [reflexivity |].
  unfold Sched.noProducer. cbn [forallb]. intros H.
  apply andb_true_iff in H as [Ha Hrest].
  destruct a; try discriminate Ha; now apply IH.
Qed.

(** Steps of [Clear] itself add neither a producer nor a consumer. *)
Lemma company_alone (sched : list actor) (n : nat) :
  Sched.noProducer (sched ++ repeat Self n) = Sched.noProducer sched /\
  Sched.soleConsumer (sched ++ repeat Self n) = Sched.soleConsumer sched.
Proof.
  unfold Sched.noProducer, Sched.soleConsumer. rewrite !forallb_app.
  assert (H : forall p : actor -> bool, p Self = true -> forallb p (repeat Self n) = true).
  { intros p Hp. induction n as [| n IH]; [reflexivity |].
    cbn [repeat forallb]. now rewrite Hp, IH. }
  rewrite !H by reflexivity. now rewrite !andb_true_r.
Qed.

(** From a configuration in which [Clear] finds what it has tested, two
    steps of its own for each buffered item and one more bring it to its
    return. *)
Lemma run_to_return (k : config) :
  Sched.tested k ->
  exists (n : nat) (k' : config),
    (n <= Sched.stepsLeft k)%nat /\
    (n <= 2 * List.length (buf (ch k)) + 1)%nat /\
    run (repeat Self n) k = Some k' /\ at_ k' = Returned.
Proof.
  intros Hk. unfold Sched.tested in Hk. destruct k as [[b n cl] p d].
  unfold Sched.stepsLeft. cbn [at_ ch buf] in *.
  destruct p.
  - exists (2 * List.length b + 1)%nat. eexists.
    split; [lia |]. split; [lia |]. rewrite run_alone. now split.
  - destruct b as [| x b]; [now destruct Hk |].
    exists (S (2 * List.length b + 1)). eexists.
    split; [cbn [List.length]; lia |]. split; [cbn [List.length]; lia |].
    cbn [repeat run].
    unfold step at 1. cbn [at_ ch recv buf cap closed dropped].
    rewrite run_alone. now split.
  - exists 0%nat. eexists. split; [lia |]. split; [lia |].
    cbn [repeat run]. now split.
Qed.

End ClearRuns.

(** C6, as the code has it: with no producer at the channel, once [Clear]
    has returned the buffer is empty and stays so: a receive that follows
    gets no item buffered before, it waits (at a closed channel it reports
    the end of the stream) and is handed the next update sent; and [Clear]
    has dropped no more than was buffered at the call.  If moreover no
    other consumer receives during the call, [Clear] never waits, has
    dropped exactly the items buffered at the call when it returns, and
    does return: from wherever the call is, at most two steps of its own
    for each item then buffered and one more bring it to its return, also
    from an empty buffer. *)
Theorem Clear_without_producer (c : Chan.chan) :
  (forall (sched : list Chan.actor) (k : Chan.config),
     Sched.noProducer sched = true ->
     Chan.run sched (Chan.start c) = Some k ->
     Chan.at_ k = Chan.Returned ->
     Chan.buf (Chan.ch k) = [] /\
     Chan.recv (Chan.ch k)
     = (if Chan.closed (Chan.ch k) then Chan.EndOfStream else Chan.RecvBlocks) /\
     (forall u, Chan.handOver u (Chan.ch k)
                = if Chan.closed (Chan.ch k) then None else Some u) /\
     (List.length (Chan.dropped k) <= List.length (Chan.buf c))%nat) /\
  (forall (sched : list Chan.actor) (k : Chan.config),
     Sched.noProducer sched = true -> Sched.soleConsumer sched = true ->
     Chan.run sched (Chan.start c) = Some k ->
     (Chan.at_ k <> Chan.Returned -> Chan.step Chan.Self k <> None) /\
     (Chan.at_ k = Chan.Returned -> Chan.dropped k = Chan.buf c) /\
     (exists (n : nat) (k' : Chan.config),
        (n <= 2 * List.length (Chan.buf (Chan.ch k)) + 1)%nat /\
        Chan.run (sched ++ repeat Chan.Self n) (Chan.start c) = Some k' /\
        Chan.at_ k' = Chan.Returned /\
        Chan.dropped k' = Chan.buf c /\
        Chan.buf (Chan.ch k') = [])) /\
  (exists k : Chan.config,
     Chan.run (Chan.alone c) (Chan.start c) = Some k /\
     Chan.at_ k = Chan.Returned /\
     Chan.dropped k = Chan.buf c /\
     Chan.buf (Chan.ch k) = []).
Proof.
  split; [| split].
  - intros sched k Hquiet Hrun Hat.
    destruct (run_quiet sched (Chan.start c) k Hquiet) as (Hdrained & Hitems & _);
      [discriminate | exact Hrun |].
    specialize (Hdrained Hat).
    destruct (recv_empty (Chan.ch k) Hdrained) as [Hrecv Hhand].
    repeat split; try assumption.
    cbn [Chan.start Chan.dropped Chan.ch List.length] in Hitems. lia.
  - assert (Hall : forall (sched : list Chan.actor) (k : Chan.config),
               Sched.noProducer sched = true -> Sched.soleConsumer sched = true ->
               Chan.run sched (Chan.start c) = Some k ->
               Chan.at_ k = Chan.Returned ->
               Chan.dropped k = Chan.buf c /\ Chan.buf (Chan.ch k) = []).
    { intros sched k Hquiet Hsole Hrun Hat.
      destruct (run_sole sched (Chan.start c) k Hsole) as [_ Hitems];
        [discriminate | exact Hrun |].
      destruct (run_quiet sched (Chan.start c) k Hquiet) as (Hdrained & _ & _);
        [discriminate | exact Hrun |].
      rewrite (Hdrained Hat), app_nil_r in Hitems.
      cbn [Chan.start Chan.dropped Chan.ch] in Hitems.
      rewrite (noProducer_produced sched Hquiet), app_nil_r in Hitems.
      split; [exact Hitems | exact (Hdrained Hat)]. }
    intros sched k Hquiet Hsole Hrun.
    destruct (run_sole sched (Chan.start c) k Hsole) as [Htested _];
      [discriminate | exact Hrun |].
    split; [| split].
    + intros Hat. unfold Sched.tested in Htested. destruct k as [[b n cl] p d].
      cbn [Chan.at_ Chan.ch Chan.buf] in *.
      destruct p; [| | now destruct Hat].
      * cbn. now destruct (negb _).
      * destruct b as [| x b]; [now destruct Htested | discriminate].
    + intros Hat. now apply (Hall sched k).
    + destruct (run_to_return k Htested) as (n & k' & _ & Hn & Hrun' & Hat').
      exists n, k'. split; [exact Hn |].
      assert (Hboth : Chan.run (sched ++ repeat Chan.Self n) (Chan.start c) = Some k')
        by now rewrite run_app, Hrun.
      split; [exact Hboth |]. split; [exact Hat' |].
      destruct (company_alone sched n) as [Hq Hs].
      apply (Hall (sched ++ repeat Chan.Self n)%list k');
        [now rewrite Hq | now rewrite Hs | exact Hboth | exact Hat'].
  - destruct c as [b n cl].
    exists (Chan.Config (Chan.Chan [] n cl) Chan.Returned b).
    split; [apply (run_alone b n cl []) | now repeat split].
Qed.

Lemma Clear_without_producer_witness :
  let c := Chan.Chan [VInt 5; VInt 6] 3 false in
  let sched := [Chan.Self; Chan.Self; Chan.Self; Chan.Self; Chan.Self; Chan.Closer] in
  Chan.run sched (Chan.start c)
  = Some (Chan.Config (Chan.Chan [] 3 true) Chan.Returned [VInt 5; VInt 6]) /\
  Chan.recv (Chan.Chan [] 3 true) = Chan.EndOfStream /\
  Chan.dropped (Chan.Config (Chan.Chan [] 3 true) Chan.Returned [VInt 5; VInt 6])
  = [VInt 5; VInt 6] /\
  (exists (n : nat) (k' : Chan.config),
     (n <= 3)%nat /\
     Chan.run ([Chan.Self; Chan.Self; Chan.Closer] ++ repeat Chan.Self n) (Chan.start c)
     = Some k' /\
     Chan.at_ k' = Chan.Returned /\
     Chan.dropped k' = [VInt 5; VInt 6] /\
     Chan.buf (Chan.ch k') = []).
Proof.
  intros c sched.
  destruct (Clear_without_producer c) as (Hquiet & Hsole & _).
  split; [reflexivity |]. split; [| split].
  - apply (Hquiet sched (Chan.Config (Chan.Chan [] 3 true) Chan.Returned [VInt 5; VInt 6]));
      reflexivity.
  - apply (Hsole sched (Chan.Config (Chan.Chan [] 3 true) Chan.Returned [VInt 5; VInt 6]));
      reflexivity.
  - apply (Hsole [Chan.Self; Chan.Self; Chan.Closer]
             (Chan.Config (Chan.Chan [VInt 6] 3 true) Chan.AtTest [VInt 5]));
      reflexivity.
Defined.

(** C6, as stated, fails with another consumer at the channel and no
    producer.  On a channel that holds one update, the other consumer takes
    it between the test and the receive of [Clear], which then waits at its
    receive; on a channel that holds two, the other consumer takes the
    first, and [Clear] returns having dropped only the second. *)
Lemma Clear_races_another_consumer :
  ~ Stated.clearSucceeds /\ ~ Stated.clearDropsAll.
Proof.
  split.
  - intros H.
    apply (H (Chan.Chan [VInt 1] 1 false) [Chan.Self; Chan.Consumer] _
             eq_refl eq_refl).
    + discriminate.
    + reflexivity.
  - intros H.
    pose proof (H (Chan.Chan [VInt 1; VInt 2] 2 false)
                  [Chan.Self; Chan.Consumer; Chan.Self; Chan.Self] _
                  eq_refl eq_refl eq_refl) as Heq.
    discriminate Heq.
Qed.

(** C7, as the code has it: [Clear] is a loop of test and receive.  It
    never waits as long as no other consumer receives from the channel,
    whatever the producer does.  As long as no producer sends, it removes
    at most the items buffered at the call and takes at most two steps for
    each of them and one more, whatever other consumers do.  With neither
    another consumer nor a producer it returns, within that number of
    steps from the call.  Once it has returned, items that arrive are not
    discarded.  While a producer keeps
    refilling the buffer the loop goes on, and the number of items it
    discards is not bounded by the depth of the buffer at the call. *)
Theorem Clear_bounds_by_company :
  (forall (c : Chan.chan) (sched : list Chan.actor) (k : Chan.config),
     Sched.soleConsumer sched = true ->
     Chan.run sched (Chan.start c) = Some k ->
     Chan.at_ k <> Chan.Returned ->
     Chan.step Chan.Self k <> None) /\
  (forall (c : Chan.chan) (sched : list Chan.actor) (k : Chan.config),
     Sched.noProducer sched = true ->
     Chan.run sched (Chan.start c) = Some k ->
     (List.length (Chan.dropped k) <= List.length (Chan.buf c))%nat /\
     (Sched.selfSteps sched <= 2 * List.length (Chan.buf c) + 1)%nat) /\
  (forall (c : Chan.chan) (sched : list Chan.actor) (k : Chan.config),
     Sched.noProducer sched = true -> Sched.soleConsumer sched = true ->
     Chan.run sched (Chan.start c) = Some k ->
     exists (n : nat) (k' : Chan.config),
       (Sched.selfSteps sched + n <= 2 * List.length (Chan.buf c) + 1)%nat /\
       Chan.run (sched ++ repeat Chan.Self n) (Chan.start c) = Some k' /\
       Chan.at_ k' = Chan.Returned) /\
  (forall (k k' : Chan.config) (sched : list Chan.actor),
     Chan.at_ k = Chan.Returned -> Chan.run sched k = Some k' ->
     Chan.at_ k' = Chan.Returned /\ Chan.dropped k' = Chan.dropped k) /\
  (forall (c : Chan.chan) (u : value) (rounds : nat),
     Chan.buf c <> [] -> Chan.closed c = false ->
     (List.length (Chan.buf c) <= Chan.cap c)%nat ->
     exists k : Chan.config,
       Chan.run (Chan.feeding u rounds) (Chan.start c) = Some k /\
       Chan.at_ k = Chan.AtTest /\
       List.length (Chan.dropped k) = rounds).
Proof.
  split; [| split; [| split; [| split]]].
  - intros c sched k Hsole Hrun Hat.
    destruct (run_sole sched (Chan.start c) k Hsole) as [Hk _];
      [discriminate | exact Hrun |].
    unfold Sched.tested in Hk. destruct k as [[b n cl] p d].
    cbn [Chan.at_ Chan.ch Chan.buf] in *.
    destruct p; [| | now destruct Hat].
    + cbn. now destruct (negb _).
    + destruct b as [| x b]; [now destruct Hk | discriminate].
  - intros c sched k Hquiet Hrun.
    destruct (run_quiet sched (Chan.start c) k Hquiet) as (_ & Hitems & Hsteps);
      [discriminate | exact Hrun |].
    unfold Sched.stepsLeft in Hsteps at 2.
    cbn [Chan.start Chan.dropped Chan.ch Chan.at_ List.length] in *. lia.
  - intros c sched k Hquiet Hsole Hrun.
    destruct (run_sole sched (Chan.start c) k Hsole) as [Hk _];
      [discriminate | exact Hrun |].
    destruct (run_quiet sched (Chan.start c) k Hquiet) as (_ & _ & Hsteps);
      [discriminate | exact Hrun |].
    destruct (run_to_return k Hk) as (n & k' & Hn & _ & Hrun' & Hat').
    exists n, k'. split; [| split; [| exact Hat']].
    + unfold Sched.stepsLeft in Hsteps at 2.
      cbn [Chan.start Chan.ch Chan.at_] in Hsteps. lia.
    + now rewrite run_app, Hrun.
  - intros k k' sched. apply returned_is_final.
  - intros c u rounds Hne Hopen Hcap.
    apply (run_feeding u rounds c [] Hne Hopen Hcap).
Qed.

Lemma Clear_bounds_by_company_witness :
  let c := Chan.Chan [VInt 5] 1 false in
  Chan.step Chan.Self (Chan.Config (Chan.Chan [VInt 6] 1 false) Chan.AtTest [VInt 5])
  <> None /\
  (List.length [VInt 5] <= 1)%nat /\
  (exists (n : nat) (k' : Chan.config),
     (1 + n <= 3)%nat /\
     Chan.run ([Chan.Self; Chan.Closer] ++ repeat Chan.Self n) (Chan.start c) = Some k' /\
     Chan.at_ k' = Chan.Returned) /\
  (forall k', Chan.run [Chan.Producer (VInt 6)]
                (Chan.Config (Chan.Chan [] 1 false) Chan.Returned [VInt 5]) = Some k' ->
              Chan.dropped k' = [VInt 5]) /\
  (exists k, Chan.run (Chan.feeding (VInt 6) 4) (Chan.start c) = Some k /\
             Chan.at_ k = Chan.AtTest /\ List.length (Chan.dropped k) = 4%nat).
Proof.
  intros c.
  destruct Clear_bounds_by_company as (Hnowait & Hbound & Hreturn & Hfinal & Hfeeding).
  split; [| split; [| split; [| split]]].
  - apply (Hnowait c [Chan.Self; Chan.Self; Chan.Producer (VInt 6)]);
      [reflexivity | reflexivity | discriminate].
  - apply (Hbound c [Chan.Self; Chan.Self]
             (Chan.Config (Chan.Chan [] 1 false) Chan.AtTest [VInt 5]));
      reflexivity.
  - apply (Hreturn c [Chan.Self; Chan.Closer]
             (Chan.Config (Chan.Chan [VInt 5] 1 true) Chan.AtReceive []));
      reflexivity.
  - intros k' Hrun.
    apply (Hfinal (Chan.Config (Chan.Chan [] 1 false) Chan.Returned [VInt 5])
                  k' [Chan.Producer (VInt 6)]); [reflexivity | exact Hrun].
  - apply (Hfeeding c (VInt 6) 4%nat); [discriminate | reflexivity | cbn; lia].
Defined.

(** C7, as stated, fails on a channel of capacity 1 that holds one update:
    with the producer sending one more update after the first receive,
    [Clear] discards two items where one was buffered at the call; and with
    another consumer taking the item between the test and the receive,
    [Clear] waits at its receive. *)
Lemma Clear_neither_bounded_nor_free_of_waiting :
  ~ Spec.clearBounded /\ ~ Spec.clearNeverBlocks.
Proof.
  split.
  - intros H.
    pose proof (H (Chan.Chan [VInt 1] 1 false)
                  [Chan.Self; Chan.Self; Chan.Producer (VInt 2); Chan.Self; Chan.Self]
                  _ eq_refl) as Hle.
    cbn in Hle. lia.
  - intros H.
    apply (H (Chan.Chan [VInt 1] 1 false) [Chan.Self; Chan.Consumer] _ eq_refl).
    + discriminate.
    + reflexivity.
Qed.

(** ** Decoding an object into a struct *)

Lemma assoc_setField_same (name : string) (w : value) (fs : list (string * value)) :
  assoc name (setField name w fs) = Some w.
Proof.
  induction fs as [| [n v] fs IH]; cbn [setField assoc].
  - now rewrite String.eqb_refl.
  - destruct (String.eqb name n) eqn:E; cbn [assoc]; rewrite E; [reflexivity | exact IH].
Qed.

Lemma assoc_setField_other (name name' : string) (w : value)
    (fs : list (string * value)) :
  name <> name' -> assoc name (setField name' w fs) = assoc name fs.
Proof.
  intros Hne. apply String.eqb_neq in Hne.
  induction fs as [| [n v] fs IH]; cbn [setField assoc].
  - now rewrite Hne.
  - destruct (String.eqb name' n) eqn:E; cbn [assoc].
    + apply String.eqb_eq in E; subst n. now rewrite Hne.
    + now rewrite IH.
Qed.

Lemma setField_setField (name : string) (w w' : value) (fs : list (string * value)) :
  setField name w' (setField name w fs) = setField name w' fs.
Proof.
  induction fs as [| [n v] fs IH]; cbn [setField].
  - now rewrite String.eqb_refl.
  - destruct (String.eqb name n) eqn:E; cbn [setField]; rewrite E;
      [reflexivity | now rewrite IH].
Qed.

Lemma findField_In (fields : list fieldDecl) (key : string) (f : fieldDecl) :
  Json.findField fields key = Some f -> In f fields.
Proof.
  unfold Json.findField.
  destruct (find _ fields) as [g |] eqn:E.
  - intros H; injection H as <-. now apply find_some in E.
  - intros H. now apply find_some in H.
Qed.

(** What one member's value does to the field it is decoded into. *)
Lemma value_null (t : gotype) (v : value) (s : Json.errs) :
  Json.value_ JNull t v s = (Json.storeNull t v, s).
Proof. reflexivity. Qed.

Lemma indirect_ptr (t : gotype) (v : value) :
  exists bt bv put,
    Json.indirect (TPtr t) v = (bt, bv, fun r => VPtr (Some (put r))).
Proof.
  cbn [Json.indirect].
  destruct (Json.indirect t _) as [[bt bv] put].
  now exists bt, bv, put.
Qed.

(** A value other than [null] leaves a pointer non-nil, also when the value
    does not fit the type pointed to. *)
Lemma value_ptr_allocates (j : json) (t : gotype) (v : value) (s : Json.errs) :
  Decode.isNull j = false ->
  exists w, fst (Json.value_ j (TPtr t) v s) = VPtr (Some w).
Proof.
  intros Hj.
  destruct (indirect_ptr t v) as (bt & bv & put & Hind).
  destruct j; try discriminate Hj; cbn [Json.value_]; rewrite Hind.
  - destruct (Json.literalStore _ bt bv s) as [w s']. now exists (put w).
  - destruct (Json.literalStore _ bt bv s) as [w s']. now exists (put w).
  - destruct (Json.literalStore _ bt bv s) as [w s']. now exists (put w).
  - destruct bt; try (now eexists).
    destruct (Json.array _ _ _ _ _) as [ws s']. now eexists.
  - destruct bt; try (now eexists).
    destruct (Json.object _ _ _ _ _) as [fs s']. now eexists.
Qed.

(** A [json.RawMessage] receives the value as it is, [null] too. *)
Lemma value_raw (j : json) (v : value) (s : Json.errs) :
  Json.value_ j TRawMessage v s = (VRaw (Some j), s).
Proof. now destruct j. Qed.

Section ObjectField.

Import Json Decode.

Variable fields : list fieldDecl.
Variable name : string.

(** A field that no member decides is left as it was. *)
Lemma object_untouched (members : list (string * json)) :
  forall (fs : list (string * value)) (s : errs),
    lastValue fields name members = None ->
    assoc name (fst (object value_ fields members fs s)) = assoc name fs.
Proof.
  induction members as [| [key x] rest IH]; intros fs s Hlast; [reflexivity |].
  cbn [lastValue] in Hlast. cbn [object].
  destruct (lastValue fields name rest) as [y |] eqn:Hrest; [discriminate Hlast |].
  destruct (findField fields key) as [f |]; [| now apply IH].
  destruct (String.eqb (f_name f) name) eqn:Hname; [discriminate Hlast |].
  destruct (value_ x (f_type f) (getField f fs) s) as [w s1].
  rewrite IH by reflexivity.
  apply assoc_setField_other.
  intros ->. now rewrite String.eqb_refl in Hname.
Qed.

(** A field that some member decides holds what the last such member's
    value was decoded to. *)
Lemma object_last (members : list (string * json)) :
  forall (fs : list (string * value)) (s : errs) (x : json),
    lastValue fields name members = Some x ->
    exists f v0 s0,
      In f fields /\ f_name f = name /\
      assoc name (fst (object value_ fields members fs s))
      = Some (fst (value_ x (f_type f) v0 s0)).
Proof.
  induction members as [| [key x0] rest IH]; intros fs s x Hlast;
    [discriminate Hlast |].
  cbn [lastValue] in Hlast. cbn [object].
  destruct (lastValue fields name rest) as [y |] eqn:Hrest.
  - injection Hlast as ->.
    destruct (findField fields key) as [f |]; [| now apply IH].
    destruct (value_ x0 (f_type f) (getField f fs) s) as [w s1].
    now apply IH.
  - destruct (findField fields key) as [f |] eqn:Hfind; [| discriminate Hlast].
    destruct (String.eqb (f_name f) name) eqn:Hname; [| discriminate Hlast].
    injection Hlast as ->. apply String.eqb_eq in Hname.
    exists f, (getField f fs), s.
    split; [now apply findField_In in Hfind | split; [exact Hname |]].
    destruct (value_ x (f_type f) (getField f fs) s) as [w s1].
    rewrite object_untouched by exact Hrest.
    rewrite <- Hname. apply assoc_setField_same.
Qed.

(** For a field that is a pointer: it ends up non-nil exactly when the
    key is populated, or, with no member for it, when it was non-nil
    before. *)
Lemma object_pointer (members : list (string * json))
    (fs : list (string * value)) (s : errs) :
  (forall f, In f fields -> f_name f = name -> exists t, f_type f = TPtr t) ->
  isSome (ptrField name (VStruct (fst (object value_ fields members fs s))))
  = match lastValue fields name members with
    | Some x => negb (isNull x)
    | None => isSome (ptrField name (VStruct fs))
    end.
Proof.
  intros Hptr. unfold ptrField, field. cbn [structFields].
  destruct (lastValue fields name members) as [x |] eqn:Hlast.
  - destruct (object_last members fs s x Hlast) as (f & v0 & s0 & Hin & Hname & ->).
    destruct (Hptr f Hin Hname) as [t ->].
    destruct (isNull x) eqn:Hnull.
    + destruct x; try discriminate Hnull. reflexivity.
    + destruct (value_ptr_allocates x t v0 s0 Hnull) as [w ->]. reflexivity.
  - now rewrite object_untouched.
Qed.

End ObjectField.

(** Decoding an object that the scanner accepts into a fresh struct decodes
    its members into the fields of the zero value; the error is the first
    type error of the members. *)
Lemma decode_object (name : string) (members : list (string * json)) :
  Json.wellNested (JObj members) = true ->
  Decode.decode name (JObj members)
  = (VStruct (fst (Json.object Json.value_ (fieldsOf name) members
                     (structFields (zero (TStruct name))) None)),
     option_map Json.Mismatch
       (snd (Json.object Json.value_ (fieldsOf name) members
               (structFields (zero (TStruct name))) None))).
Proof.
  intros Hnested. unfold Decode.decode, Json.Unmarshal. rewrite Hnested.
  cbn [Json.value_ Json.indirect].
  now destruct (Json.object _ _ _ _ _).
Qed.

(** A text nested too deep is rejected as a whole, and nothing is decoded. *)
Lemma decode_deep (name : string) (j : json) :
  Json.wellNested j = false ->
  Decode.decode name j = (zero (TStruct name), Some Json.SyntaxError).
Proof.
  intros Hdeep. unfold Decode.decode, Json.Unmarshal. now rewrite Hdeep.
Qed.

(** The members of an object that the scanner accepts, and the object of
    each of them alone, are accepted. *)
Lemma depth_member (members : list (string * json)) (key : string) (x : json) :
  In (key, x) members -> Json.depth x < Json.depth (JObj members).
Proof.
  intros Hin. cbn [Json.depth].
  induction members as [| [k y] rest IH]; [now destruct Hin |].
  cbn [fold_right]. destruct Hin as [Heq | Hin].
  - injection Heq as -> ->. lia.
  - specialize (IH Hin). lia.
Qed.

Lemma depth_nonneg (j : json) : 0 <= Json.depth j.
Proof.
  destruct j as [| b | n | s | elems | members]; cbn [Json.depth]; try lia.
  - induction elems as [| x rest IH]; cbn [fold_right]; lia.
  - induction members as [| [k y] rest IH]; cbn [fold_right]; lia.
Qed.

Lemma wellNested_member (members : list (string * json)) (key : string) (x : json) :
  Json.wellNested (JObj members) = true -> In (key, x) members ->
  Json.wellNested x = true /\ Json.wellNested (JObj [(key, x)]) = true.
Proof.
  unfold Json.wellNested. intros Hnested Hin.
  apply Z.leb_le in Hnested. pose proof (depth_member members key x Hin) as Hlt.
  pose proof (depth_nonneg x) as Hx.
  split; apply Z.leb_le; [lia |].
  cbn [Json.depth fold_right]. lia.
Qed.

Lemma lastValue_In (fields : list fieldDecl) (name : string)
    (members : list (string * json)) (x : json) :
  Decode.lastValue fields name members = Some x -> exists key, In (key, x) members.
Proof.
  induction members as [| [k y] rest IH]; [discriminate |].
  cbn [Decode.lastValue].
  destruct (Decode.lastValue fields name rest) as [z |].
  - intros H. injection H as ->. destruct (IH eq_refl) as [key Hin].
    exists key. now right.
  - destruct (Json.findField fields k) as [f |]; [| discriminate].
    destruct (String.eqb (f_name f) name); [| discriminate].
    intros H. injection H as ->. exists k. now left.
Qed.

(** ** Type errors *)

Lemma saveError_keeps (e e' : Json.UnmarshalTypeError) :
  Json.saveError e' (Some e) = Some e.
Proof. reflexivity. Qed.

Lemma literalStore_keeps_error (j : json) (t : gotype) (v : value)
    (e : Json.UnmarshalTypeError) :
  snd (Json.literalStore j t v (Some e)) = Some e.
Proof.
  unfold Json.literalStore.
  destruct t, j as [| b | [z | m d] | str | elems | members]; try reflexivity;
    try (destruct (Json.intFits z); reflexivity);
    try (destruct (Json.floatFits _); reflexivity).
Qed.

(** An error once saved is the one reported: the decoder keeps the first. *)
Lemma value_keeps_error :
  forall (j : json) (t : gotype) (v : value) (e : Json.UnmarshalTypeError),
    snd (Json.value_ j t v (Some e)) = Some e.
Proof.
  fix IH 1.
  intros j t v e. destruct j as [| b | n | str | elems | members].
  - reflexivity.
  - cbn [Json.value_]. destruct (Json.indirect t v) as [[bt bv] put].
    pose proof (literalStore_keeps_error (JBool b) bt bv e) as H.
    now destruct (Json.literalStore (JBool b) bt bv (Some e)).
  - cbn [Json.value_]. destruct (Json.indirect t v) as [[bt bv] put].
    pose proof (literalStore_keeps_error (JNum n) bt bv e) as H.
    now destruct (Json.literalStore (JNum n) bt bv (Some e)).
  - cbn [Json.value_]. destruct (Json.indirect t v) as [[bt bv] put].
    pose proof (literalStore_keeps_error (JStr str) bt bv e) as H.
    now destruct (Json.literalStore (JStr str) bt bv (Some e)).
  - cbn [Json.value_]. destruct (Json.indirect t v) as [[bt bv] put].
    destruct bt; try reflexivity.
    assert (Harr : forall old,
               snd (Json.array Json.value_ bt elems old (Some e)) = Some e).
    { induction elems as [| x rest IHrest]; intros old; [reflexivity |].
      cbn [Json.array].
      pose proof (IH x bt (hd (zero bt) old) e) as Hx.
      destruct (Json.value_ x bt (hd (zero bt) old) (Some e)) as [w s1].
      cbn [snd] in Hx. subst s1.
      pose proof (IHrest (tl old)) as Hrest.
      destruct (Json.array Json.value_ bt rest (tl old) (Some e)) as [ws s2].
      exact Hrest. }
    match goal with
    | |- context [Json.array Json.value_ bt elems ?old (Some e)] =>
        pose proof (Harr old) as H;
        destruct (Json.array Json.value_ bt elems old (Some e)); exact H
    end.
  - cbn [Json.value_]. destruct (Json.indirect t v) as [[bt bv] put].
    destruct bt; try reflexivity.
    assert (Hobj : forall fs,
               snd (Json.object Json.value_ (fieldsOf name) members fs (Some e)) = Some e).
    { induction members as [| [key x] rest IHrest]; intros fs; [reflexivity |].
      cbn [Json.object].
      destruct (Json.findField (fieldsOf name) key) as [f |]; [| apply IHrest].
      pose proof (IH x (f_type f) (getField f fs) e) as Hx.
      destruct (Json.value_ x (f_type f) (getField f fs) (Some e)) as [w s1].
      cbn [snd] in Hx. subst s1. apply IHrest. }
    pose proof (Hobj (structFields bv)) as H.
    destruct (Json.object Json.value_ (fieldsOf name) members (structFields bv) (Some e)).
    exact H.
Qed.

Lemma object_keeps_error (fields : list fieldDecl) (members : list (string * json)) :
  forall (fs : list (string * value)) (e : Json.UnmarshalTypeError),
    snd (Json.object Json.value_ fields members fs (Some e)) = Some e.
Proof.
  induction members as [| [key x] rest IH]; intros fs e; [reflexivity |].
  cbn [Json.object].
  destruct (Json.findField fields key) as [f |]; [| apply IH].
  pose proof (value_keeps_error x (f_type f) (getField f fs) e) as Hx.
  destruct (Json.value_ x (f_type f) (getField f fs) (Some e)) as [w s1].
  cbn [snd] in Hx. subst s1. apply IH.
Qed.

Lemma object_app (fields : list fieldDecl) (m1 m2 : list (string * json)) :
  forall (fs : list (string * value)) (s : Json.errs),
    Json.object Json.value_ fields (m1 ++ m2) fs s
    = Json.object Json.value_ fields m2
        (fst (Json.object Json.value_ fields m1 fs s))
        (snd (Json.object Json.value_ fields m1 fs s)).
Proof.
  induction m1 as [| [key x] rest IH]; intros fs s; [reflexivity |].
  cbn [app Json.object].
  destruct (Json.findField fields key) as [f |]; [| apply IH].
  destruct (Json.value_ x (f_type f) (getField f fs) s) as [w s1]. apply IH.
Qed.

Lemma indirect_base (t : gotype) :
  forall v : value, fst (fst (Json.indirect t v)) = Members.baseType t.
Proof.
  induction t; intros v; try reflexivity.
  cbn [Json.indirect Members.baseType].
  match goal with
  | |- context [Json.indirect t ?w] =>
      specialize (IHt w); destruct (Json.indirect t w) as [[bt bv] put]
  end.
  exact IHt.
Qed.

(** A value that does not fit the type at its place is a type error. *)
Lemma value_misfit (x : json) (t : gotype) (v : value) :
  Members.fits t x = false -> snd (Json.value_ x t v None) <> None.
Proof.
  unfold Members.fits. intros Hfit.
  pose proof (indirect_base t v) as Hbase.
  destruct x as [| b | n | str | elems | members]; [discriminate Hfit | | | | |];
    cbn [Json.value_]; destruct (Json.indirect t v) as [[bt bv] put];
    cbn [fst] in Hbase; subst bt.
  - destruct (Members.baseType t); try discriminate Hfit; cbn; discriminate.
  - destruct (Members.baseType t), n as [z | m d]; try discriminate Hfit;
      cbn [Json.literalStore]; try rewrite Hfit; cbn; discriminate.
  - destruct (Members.baseType t); try discriminate Hfit; cbn; discriminate.
  - destruct (Members.baseType t); try discriminate Hfit; cbn; discriminate.
  - destruct (Members.baseType t); try discriminate Hfit; cbn; discriminate.
Qed.

Lemma object_misfit (fields : list fieldDecl) (members : list (string * json))
    (key : string) (x : json) (f : fieldDecl) :
  In (key, x) members -> Json.findField fields key = Some f ->
  Members.fits (f_type f) x = false ->
  forall (fs : list (string * value)) (s : Json.errs),
    snd (Json.object Json.value_ fields members fs s) <> None.
Proof.
  intros Hin Hfind Hfit.
  induction members as [| [key0 x0] rest IH]; intros fs s; [now destruct Hin |].
  cbn [Json.object]. destruct Hin as [Hhead | Hrest].
  - injection Hhead as -> ->. rewrite Hfind.
    destruct s as [e |].
    + pose proof (value_keeps_error x (f_type f) (getField f fs) e) as Hx.
      destruct (Json.value_ x (f_type f) (getField f fs) (Some e)) as [w s1].
      cbn [snd] in Hx. subst s1. rewrite object_keeps_error. discriminate.
    + pose proof (value_misfit x (f_type f) (getField f fs) Hfit) as Hx.
      destruct (Json.value_ x (f_type f) (getField f fs) None) as [w [e |]];
        [| now destruct Hx].
      rewrite object_keeps_error. discriminate.
  - destruct (Json.findField fields key0) as [g |]; [| now apply IH].
    destruct (Json.value_ x0 (f_type g) (getField g fs) s) as [w s1]. now apply IH.
Qed.

Lemma literalStore_error_indep (j : json) (t : gotype) (v v' : value) (s : Json.errs) :
  snd (Json.literalStore j t v s) = snd (Json.literalStore j t v' s).
Proof.
  unfold Json.literalStore.
  destruct t, j as [| b | [z | m d] | str | elems | members]; try reflexivity;
    try (destruct (Json.intFits z); reflexivity);
    try (destruct (Json.floatFits _); reflexivity).
Qed.

(** Whether a value is a type error at a type, and which, does not depend
    on what is there before. *)
Lemma value_error_indep :
  forall (j : json) (t : gotype) (v v' : value) (s : Json.errs),
    snd (Json.value_ j t v s) = snd (Json.value_ j t v' s).
Proof.
  fix IH 1.
  intros j t v v' s.
  pose proof (indirect_base t v) as Hb. pose proof (indirect_base t v') as Hb'.
  destruct j as [| b | n | str | elems | members]; [reflexivity | | | | |];
    cbn [Json.value_];
    destruct (Json.indirect t v) as [[bt bv] put];
    destruct (Json.indirect t v') as [[bt' bv'] put'];
    cbn [fst] in Hb, Hb'; subst bt bt'.
  - pose proof (literalStore_error_indep (JBool b) (Members.baseType t) bv bv' s) as H.
    destruct (Json.literalStore (JBool b) _ bv s), (Json.literalStore (JBool b) _ bv' s).
    exact H.
  - pose proof (literalStore_error_indep (JNum n) (Members.baseType t) bv bv' s) as H.
    destruct (Json.literalStore (JNum n) _ bv s), (Json.literalStore (JNum n) _ bv' s).
    exact H.
  - pose proof (literalStore_error_indep (JStr str) (Members.baseType t) bv bv' s) as H.
    destruct (Json.literalStore (JStr str) _ bv s), (Json.literalStore (JStr str) _ bv' s).
    exact H.
  - destruct (Members.baseType t) as [| | | | | | | te |]; try reflexivity.
    assert (Harr : forall slots slots' s0,
               snd (Json.array Json.value_ te elems slots s0)
               = snd (Json.array Json.value_ te elems slots' s0)).
    { induction elems as [| x rest IHrest]; intros slots slots' s0; [reflexivity |].
      cbn [Json.array].
      pose proof (IH x te (hd (zero te) slots) (hd (zero te) slots') s0) as Hx.
      destruct (Json.value_ x te (hd (zero te) slots) s0) as [w s1].
      destruct (Json.value_ x te (hd (zero te) slots') s0) as [w' s1'].
      cbn [snd] in Hx. subst s1'.
      pose proof (IHrest (tl slots) (tl slots') s1) as Hrest.
      destruct (Json.array Json.value_ te rest (tl slots) s1) as [ws s2].
      destruct (Json.array Json.value_ te rest (tl slots') s1) as [ws' s2'].
      exact Hrest. }
    match goal with
    | |- snd (let '(_, _) := Json.array Json.value_ te elems ?a s in _)
         = snd (let '(_, _) := Json.array Json.value_ te elems ?b s in _) =>
        pose proof (Harr a b s) as H;
        destruct (Json.array Json.value_ te elems a s),
                 (Json.array Json.value_ te elems b s); exact H
    end.
  - destruct (Members.baseType t) as [| | | | | | | | name]; try reflexivity.
    assert (Hobj : forall fs fs' s0,
               snd (Json.object Json.value_ (fieldsOf name) members fs s0)
               = snd (Json.object Json.value_ (fieldsOf name) members fs' s0)).
    { induction members as [| [key x] rest IHrest]; intros fs fs' s0; [reflexivity |].
      cbn [Json.object].
      destruct (Json.findField (fieldsOf name) key) as [f |]; [| apply IHrest].
      pose proof (IH x (f_type f) (getField f fs) (getField f fs') s0) as Hx.
      destruct (Json.value_ x (f_type f) (getField f fs) s0) as [w s1].
      destruct (Json.value_ x (f_type f) (getField f fs') s0) as [w' s1'].
      cbn [snd] in Hx. subst s1'. apply IHrest. }
    pose proof (Hobj (structFields bv) (structFields bv') s) as H.
    destruct (Json.object Json.value_ (fieldsOf name) members (structFields bv) s),
             (Json.object Json.value_ (fieldsOf name) members (structFields bv') s).
    exact H.
Qed.

(** The error of decoding an object is the error of the first of its
    members that is a type error at its field. *)
Lemma object_error (fields : list fieldDecl) (members : list (string * json)) :
  forall fs : list (string * value),
    option_map Json.Mismatch (snd (Json.object Json.value_ fields members fs None))
    = Settle.firstError
        (map (fun m => option_map Json.Mismatch
                         (snd (Json.object Json.value_ fields [m] [] None))) members).
Proof.
  induction members as [| [key x] rest IH]; intros fs; [reflexivity |].
  cbn [map Json.object].
  destruct (Json.findField fields key) as [f |];
    [| cbn [snd option_map Settle.firstError]; apply IH].
  pose proof (value_error_indep x (f_type f) (getField f fs) (getField f []) None) as Hx.
  destruct (Json.value_ x (f_type f) (getField f fs) None) as [w s1].
  destruct (Json.value_ x (f_type f) (getField f []) None) as [w' s1'].
  cbn [snd] in Hx. subst s1'. cbn [snd].
  destruct s1 as [e |]; cbn [option_map Settle.firstError].
  - now rewrite object_keeps_error.
  - apply IH.
Qed.

(** The error that decoding an object returns is the error of the first of
    its members that is rejected when decoded alone. *)
Lemma decode_error_by_member (name : string) (members : list (string * json)) :
  Json.wellNested (JObj members) = true ->
  snd (Decode.decode name (JObj members))
  = Settle.firstError (map (fun m => snd (Decode.decode name (JObj [m]))) members).
Proof.
  intros Hnested. rewrite decode_object by exact Hnested. cbn [snd].
  rewrite object_error. f_equal. apply map_ext_in. intros [key x] Hin.
  destruct (wellNested_member members key x Hnested Hin) as [_ Hone].
  rewrite decode_object by exact Hone. cbn [snd].
  rewrite (object_error (fieldsOf name) [(key, x)] (structFields (zero (TStruct name)))).
  cbn [map Settle.firstError].
  now destruct (option_map Json.Mismatch _).
Qed.

(** ** Fields by name *)

Lemma distinct_NoDup (l : list string) : Members.distinct l = true -> NoDup l.
Proof.
  induction l as [| x l IH]; intros H; [constructor |].
  cbn [Members.distinct] in H. apply andb_true_iff in H as [Hx Hl].
  constructor; [| now apply IH].
  intros Hin. apply negb_true_iff in Hx.
  assert (Hex : existsb (String.eqb x) l = true)
    by (apply existsb_exists; exists x; split; [exact Hin | apply String.eqb_refl]).
  rewrite Hex in Hx. discriminate Hx.
Qed.

Lemma NoDup_map_eq {A : Type} (h : A -> string) (l : list A) (a b : A) :
  NoDup (map h l) -> In a l -> In b l -> h a = h b -> a = b.
Proof.
  induction l as [| c l IH]; intros Hnd Ha Hb Heq; [now destruct Ha |].
  cbn [map] in Hnd. inversion Hnd as [| ? ? Hnotin Hnd']; subst.
  destruct Ha as [-> | Ha], Hb as [-> | Hb].
  - reflexivity.
  - destruct Hnotin. rewrite Heq. now apply in_map.
  - destruct Hnotin. rewrite <- Heq. now apply in_map.
  - now apply IH.
Qed.

(** The declarations of the table are well formed. *)
Lemma structs_wellDeclared (name : string) :
  Members.wellDeclared (fieldsOf name) = true.
Proof.
  assert (Hall : forallb (fun nf => Members.wellDeclared (snd nf)) structs = true)
    by (vm_compute; reflexivity).
  unfold fieldsOf.
  assert (Hassoc : forall l : list (string * list fieldDecl),
             forallb (fun nf => Members.wellDeclared (snd nf)) l = true ->
             Members.wellDeclared match assoc name l with
                                  | Some fs => fs
                                  | None => []
                                  end = true).
  { induction l as [| [n fs] l IH]; intros H; [reflexivity |].
    cbn [forallb snd] in H. apply andb_true_iff in H as [Hfs Hl].
    cbn [assoc]. destruct (String.eqb name n); [exact Hfs | now apply IH]. }
  now apply Hassoc.
Qed.

Lemma field_by_name (name : string) (f g : fieldDecl) :
  In f (fieldsOf name) -> In g (fieldsOf name) -> f_name g = f_name f -> g = f.
Proof.
  intros Hf Hg Heq.
  pose proof (structs_wellDeclared name) as Hwd.
  unfold Members.wellDeclared in Hwd. apply andb_true_iff in Hwd as [Hnames _].
  exact (NoDup_map_eq f_name _ g f (distinct_NoDup _ Hnames) Hg Hf Heq).
Qed.

Lemma value_stored (t : gotype) (x : json) (w v : value) (s : Json.errs) :
  Members.stored t x = Some w -> fst (Json.value_ x t v s) = w.
Proof.
  unfold Members.stored.
  destruct t, x as [| b | [z | m e] | str | elems | members];
    try discriminate; cbn [Json.value_ Json.indirect Json.literalStore Json.storeNull fst];
    try (intros H; injection H as <-; reflexivity).
  - destruct (Json.intFits z); [| discriminate].
    intros H; injection H as <-; reflexivity.
  - destruct (Json.intFits z); [| discriminate].
    intros H; injection H as <-; reflexivity.
  - destruct (Json.floatFits (NInt z)); [| discriminate].
    intros H; injection H as <-; reflexivity.
  - destruct (Json.floatFits (NDec m e)); [| discriminate].
    intros H; injection H as <-; reflexivity.
Qed.

(** A member leaves at a scalar field what it stores there, or else what
    was there. *)
Lemma value_scalar (x : json) (t : gotype) (v : value) (s : Json.errs) :
  Settle.scalar t = true ->
  fst (Json.value_ x t v s) = match Members.stored t x with
                              | Some w => w
                              | None => v
                              end.
Proof.
  intros Ht. unfold Members.stored.
  destruct t; try discriminate Ht;
    destruct x as [| b | [z | m e] | str | elems | members];
    cbn [Json.value_ Json.indirect Json.literalStore Json.storeNull fst];
    try reflexivity;
    try (destruct (Json.intFits z); reflexivity);
    try (destruct (Json.floatFits _); reflexivity).
Qed.

Section ScalarField.

Import Json Decode.

Variable fields : list fieldDecl.
Variable name : string.
Variable t : gotype.

Hypothesis Htype : forall g, In g fields -> f_name g = name -> f_type g = t.
Hypothesis Hscalar : Settle.scalar t = true.

Local Abbreviation held fs :=
  (match assoc name fs with
   | Some v => v
   | None => zero t
   end).

(** A scalar field holds what the last fitting member stored, or what it
    held before. *)
Lemma object_scalar (members : list (string * json)) :
  forall (fs : list (string * value)) (s : errs),
    held (fst (object value_ fields members fs s))
    = match Settle.settled fields name t members with
      | Some w => w
      | None => held fs
      end.
Proof.
  induction members as [| [key x] rest IH]; intros fs s; [reflexivity |].
  cbn [object Settle.settled].
  destruct (findField fields key) as [f |] eqn:Hfind.
  - destruct (value_ x (f_type f) (getField f fs) s) as [w s1] eqn:Hvalue.
    rewrite IH.
    destruct (Settle.settled fields name t rest) as [w0 |]; [reflexivity |].
    destruct (String.eqb (f_name f) name) eqn:Hname.
    + apply String.eqb_eq in Hname.
      pose proof (Htype f (findField_In _ _ _ Hfind) Hname) as Hf.
      rewrite <- Hname at 1. rewrite assoc_setField_same.
      pose proof (value_scalar x (f_type f) (getField f fs) s) as Hw.
      rewrite Hvalue, Hf in Hw. cbn [fst] in Hw. rewrite (Hw Hscalar).
      unfold getField. now rewrite Hname, Hf.
    + rewrite assoc_setField_other; [reflexivity |].
      intros Heq. rewrite Heq, String.eqb_refl in Hname. discriminate Hname.
  - rewrite IH. now destruct (Settle.settled fields name t rest).
Qed.

End ScalarField.

(** The same for a field of a struct of the table decoded from an object
    that the scanner accepts. *)
Lemma decode_scalar (name : string) (f : fieldDecl) (members : list (string * json)) :
  In f (fieldsOf name) -> Settle.scalar (f_type f) = true ->
  Json.wellNested (JObj members) = true ->
  match field (f_name f) (fst (Decode.decode name (JObj members))) with
  | Some v => v
  | None => zero (f_type f)
  end
  = match Settle.settled (fieldsOf name) (f_name f) (f_type f) members with
    | Some w => w
    | None => match field (f_name f) (zero (TStruct name)) with
              | Some v => v
              | None => zero (f_type f)
              end
    end.
Proof.
  intros Hf Hscalar Hnested. rewrite decode_object by exact Hnested.
  cbn [fst]. unfold field. cbn [structFields].
  apply (object_scalar (fieldsOf name) (f_name f) (f_type f)); [| exact Hscalar].
  intros g Hg Hname. now rewrite (field_by_name name f g Hf Hg Hname).
Qed.

(** ** Decoding an [Update] *)

(** Each sub-payload of [Update] is declared as a pointer. *)
Lemma subPayloads_are_pointers (name : string) (f : fieldDecl) :
  In name Update.subPayloads -> In f Update_fields -> f_name f = name ->
  exists t, f_type f = TPtr t.
Proof.
  intros Hname Hf Heq. subst name.
  cbn [In Update_fields] in Hf.
  repeat (destruct Hf as [<- | Hf]; [try (now eexists) |]); [| now destruct Hf].
  cbn in Hname. repeat (destruct Hname as [Hname | Hname]; [discriminate Hname |]).
  now destruct Hname.
Qed.

(** C1, as the code has it: the decoder fills each sub-payload field from
    its own key and checks nothing across fields.  Of the seven sub-payloads
    an update decoded from an object nested no deeper than the scanner
    allows exposes exactly those whose keys the object populates, all of
    them when several are populated, none being preferred; and the object
    is rejected exactly when one of its members is rejected when decoded
    alone, with the error of the first such member, however many keys are
    populated.  An object nested deeper is rejected as a whole with a
    syntax error and nothing of it is exposed. *)
Theorem Update_exposes_each_populated_key (members : list (string * json)) :
  (Json.wellNested (JObj members) = true ->
   Update.exposed (fst (Decode.decodeUpdate (JObj members)))
   = Update.populatedKeys members /\
   snd (Decode.decodeUpdate (JObj members))
   = Settle.firstError
       (map (fun m => snd (Decode.decodeUpdate (JObj [m]))) members)) /\
  (Json.wellNested (JObj members) = false ->
   Decode.decodeUpdate (JObj members)
   = (zero (TStruct "Update"), Some Json.SyntaxError)).
Proof.
  split; [| apply decode_deep].
  intros Hnested. split; [| now apply decode_error_by_member].
  unfold Decode.decodeUpdate. rewrite decode_object by exact Hnested. cbn [fst].
  unfold Update.exposed, Update.populatedKeys.
  apply map_ext_in. intros name Hname.
  change (fieldsOf "Update") with Update_fields.
  rewrite object_pointer by (intros f; now apply subPayloads_are_pointers).
  unfold Decode.populated.
  destruct (Decode.lastValue Update_fields name members); [reflexivity |].
  cbn in Hname.
  repeat (destruct Hname as [<- | Hname]; [reflexivity |]).
  now destruct Hname.
Qed.

Lemma Update_exposes_each_populated_key_witness :
  let members := [ ("update_id", JNum (NInt 1));
                   ("message", JObj [("text", JStr "a")]);
                   ("callback_query", JObj [("id", JStr "q")]) ] in
  Json.wellNested (JObj members) = true /\
  Update.exposed (fst (Decode.decodeUpdate (JObj members)))
  = [true; false; false; false; false; false; true] /\
  snd (Decode.decodeUpdate (JObj members)) = None /\
  Decode.decodeUpdate (JObj [("message", Json.nest (Z.to_nat 10000) (JObj []))])
  = (zero (TStruct "Update"), Some Json.SyntaxError).
Proof.
  intros members. split; [reflexivity |].
  destruct (Update_exposes_each_populated_key members) as [Hshallow _].
  destruct (Hshallow eq_refl) as [Hexposed Herror].
  split; [rewrite Hexposed; reflexivity |].
  split; [rewrite Herror; reflexivity |].
  apply (proj2 (Update_exposes_each_populated_key
                  [("message", Json.nest (Z.to_nat 10000) (JObj []))])).
  vm_compute. reflexivity.
Defined.

(** C1, as stated, fails on
    [{"update_id": 1, "message": {"text": "a"}, "edited_message": {"text": "b"}}]:
    two sub-payload keys are populated, the decoder reports no error, and
    the update exposes both the message and the edited message. *)
Lemma Update_exposes_two_subpayloads :
  let members := [ ("update_id", JNum (NInt 1));
                   ("message", JObj [("text", JStr "a")]);
                   ("edited_message", JObj [("text", JStr "b")]) ] in
  let u := fst (Decode.decodeUpdate (JObj members)) in
  countTrue (Update.populatedKeys members) = 2%nat /\
  snd (Decode.decodeUpdate (JObj members)) = None /\
  Update.Message u <> None /\ Update.EditedMessage u <> None /\
  countTrue (Update.exposed u) = 2%nat.
Proof. vm_compute. repeat split; discriminate. Qed.

(** C8, as the code has it: an update object nested no deeper than the
    scanner allows, whose identifier is well typed and none of whose keys
    is one the decoder has a sub-payload field for, decodes without error,
    to the update with the given identifier and every sub-payload absent. *)
Theorem Update_unknown_keys_are_skipped (members : list (string * json)) :
  Update.noKnownSubPayload members = true ->
  Json.wellNested (JObj members) = true ->
  exists u : value,
    Decode.decodeUpdate (JObj members) = (u, None) /\
    Update.UpdateID u = Update.givenID 0 members /\
    Update.exposed u = [false; false; false; false; false; false; false].
Proof.
  intros Hknown Hnested.
  assert (Hobj : forall id0,
             Json.object Json.value_ Update_fields members
               (setField "UpdateID" (VInt id0) (structFields (zero (TStruct "Update")))) None
             = (setField "UpdateID" (VInt (Update.givenID id0 members))
                  (structFields (zero (TStruct "Update"))), None)).
  { clear Hnested. unfold Update.noKnownSubPayload in Hknown.
    induction members as [| [key x] rest IH]; intros id0; [reflexivity |].
    cbn [forallb fst snd] in Hknown. apply andb_true_iff in Hknown as [Hhere Hrest].
    cbn [Json.object Update.givenID].
    destruct (Json.findField Update_fields key) as [f |] eqn:Hfind;
      [| now apply IH].
    apply andb_true_iff in Hhere as [Hname Hint].
    rewrite Hname.
    assert (Hf : f = Field "UpdateID" TInt "update_id").
    { apply findField_In in Hfind. cbn [In Update_fields] in Hfind.
      destruct Hfind as [<- | Hfind]; [reflexivity |].
      repeat (destruct Hfind as [<- | Hfind]; [discriminate Hname |]).
      now destruct Hfind. }
    subst f. cbn [f_type f_name].
    unfold getField. cbn [f_name f_type]. rewrite assoc_setField_same.
    destruct x as [| b | [z | m e] | str | elems | members']; try discriminate Hint.
    - cbn [Json.value_ Json.storeNull]. rewrite setField_setField. now apply IH.
    - cbn [Update.wellTypedInt] in Hint.
      cbn [Json.value_ Json.indirect Json.literalStore]. rewrite Hint.
      rewrite setField_setField. now apply IH. }
  specialize (Hobj 0).
  change (setField "UpdateID" (VInt 0) (structFields (zero (TStruct "Update"))))
    with (structFields (zero (TStruct "Update"))) in Hobj.
  exists (VStruct (setField "UpdateID" (VInt (Update.givenID 0 members))
                     (structFields (zero (TStruct "Update"))))).
  unfold Decode.decodeUpdate. rewrite decode_object by exact Hnested.
  change (fieldsOf "Update") with Update_fields. rewrite Hobj.
  cbn [fst snd option_map].
  split; [reflexivity |]. split.
  - unfold Update.UpdateID, intField, field. cbn [structFields].
    now rewrite assoc_setField_same.
  - reflexivity.
Qed.

Lemma Update_unknown_keys_are_skipped_witness :
  let members := [ ("update_id", JNum (NInt 7));
                   ("poll_answer", JObj [("poll_id", JStr "p")]);
                   ("my_chat_member", JArr [JBool true]) ] in
  Update.noKnownSubPayload members = true /\
  Json.wellNested (JObj members) = true /\
  exists u : value,
    Decode.decodeUpdate (JObj members) = (u, None) /\
    Update.UpdateID u = 7 /\
    Update.exposed u = [false; false; false; false; false; false; false].
Proof.
  intros members. split; [reflexivity |]. split; [reflexivity |].
  apply (Update_unknown_keys_are_skipped members); reflexivity.
Defined.

(** C8, as stated, fails on the object of the identifier 7 and an unknown
    key whose value is nested 10001 arrays deep: no key of it is a
    sub-payload's and the identifier is well typed, yet the scanner rejects
    the text, decoding returns a syntax error, and the update is left
    with the identifier 0. *)
Lemma Update_unknown_key_nested_too_deep :
  let members := [ ("update_id", JNum (NInt 7));
                   ("poll_answer", Json.nest (Z.to_nat 10001) JNull) ] in
  Update.noKnownSubPayload members = true /\
  Update.givenID 0 members = 7 /\
  snd (Decode.decodeUpdate (JObj members)) = Some Json.SyntaxError /\
  snd (Decode.decodeUpdate (JObj members)) <> None /\
  Update.UpdateID (fst (Decode.decodeUpdate (JObj members))) = 0.
Proof.
  cbv zeta.
  split; [vm_compute; reflexivity |]. split; [vm_compute; reflexivity |].
  assert (H : Decode.decodeUpdate
                (JObj [ ("update_id", JNum (NInt 7));
                        ("poll_answer", Json.nest (Z.to_nat 10001) JNull) ])
              = (zero (TStruct "Update"), Some Json.SyntaxError)).
  { apply decode_deep. vm_compute. reflexivity. }
  rewrite H. cbn [fst snd].
  split; [reflexivity |]. split; [discriminate | reflexivity].
Qed.

(** ** Decoding a [Message] *)

Lemma ReplyToMessage_type (f : fieldDecl) :
  In f Message_fields -> f_name f = "ReplyToMessage" ->
  f_type f = TPtr (TStruct "Message").
Proof.
  intros Hf Hname. cbn [In Message_fields] in Hf.
  repeat (destruct Hf as [<- | Hf];
          [first [reflexivity | discriminate Hname] |]).
  now destruct Hf.
Qed.

(** C3, as the code has it: [ReplyToMessage] is an ordinary pointer field
    that the decoder fills by the same recursion as the message itself.  For
    a message object whose reply_to_message is an object that populates
    reply_to_message in turn, and which is nested no deeper than the scanner
    allows, the decoded message has its [ReplyToMessage] present and the
    [ReplyToMessage] of that one present as well; nested deeper, the object
    is rejected with a syntax error and nothing of it is decoded, the
    [ReplyToMessage] neither. *)
Theorem Message_reply_chain_is_kept (members inner : list (string * json)) :
  Decode.lastValue Message_fields "ReplyToMessage" members = Some (JObj inner) ->
  Decode.populated Message_fields "ReplyToMessage" inner = true ->
  (Json.wellNested (JObj members) = true ->
   exists parent grandparent : value,
     ptrField "ReplyToMessage" (fst (Decode.decodeMessage (JObj members))) = Some parent /\
     ptrField "ReplyToMessage" parent = Some grandparent) /\
  (Json.wellNested (JObj members) = false ->
   Decode.decodeMessage (JObj members)
   = (zero (TStruct "Message"), Some Json.SyntaxError) /\
   ptrField "ReplyToMessage" (fst (Decode.decodeMessage (JObj members))) = None).
Proof.
  intros Hlast Hinner.
  split; [intros Hnested | intros Hdeep].
  2: { unfold Decode.decodeMessage. rewrite decode_deep by exact Hdeep.
       split; reflexivity. }
  unfold Decode.decodeMessage. rewrite decode_object by exact Hnested. cbn [fst].
  change (fieldsOf "Message") with Message_fields.
  destruct (object_last Message_fields "ReplyToMessage" members
              (structFields (zero (TStruct "Message"))) None (JObj inner) Hlast)
    as (f & v0 & s0 & Hf & Hname & Hfield).
  rewrite (ReplyToMessage_type f Hf Hname) in Hfield.
  cbn [Json.value_ Json.indirect] in Hfield.
  change (fieldsOf "Message") with Message_fields in Hfield.
  destruct (Json.object Json.value_ Message_fields inner _ s0) as [fs s1] eqn:Hobj.
  cbn [fst] in Hfield.
  exists (VStruct fs).
  assert (Hgrand : Decode.isSome (ptrField "ReplyToMessage" (VStruct fs)) = true).
  { replace fs with (fst (Json.object Json.value_ Message_fields inner
                            (structFields match v0 with
                                          | VPtr (Some w) => w
                                          | _ => zero (TStruct "Message")
                                          end) s0))
      by now rewrite Hobj.
    rewrite object_pointer.
    - unfold Decode.populated in Hinner.
      now destruct (Decode.lastValue Message_fields "ReplyToMessage" inner).
    - intros g Hg Hgname. eexists. now apply ReplyToMessage_type. }
  destruct (ptrField "ReplyToMessage" (VStruct fs)) as [grandparent |];
    [| discriminate Hgrand].
  exists grandparent. split; [| reflexivity].
  unfold ptrField, field. cbn [structFields]. now rewrite Hfield.
Qed.

(** C3, as stated, fails on
    [{"message_id": 3, "reply_to_message":
        {"message_id": 2, "reply_to_message": {"message_id": 1}}}]:
    the decoded message's parent has its own [ReplyToMessage] present, the
    message of identifier 1. *)
Lemma Message_grandparent_is_decoded :
  let grand := [("message_id", JNum (NInt 1))] in
  let parent := [("message_id", JNum (NInt 2)); ("reply_to_message", JObj grand)] in
  let members := [("message_id", JNum (NInt 3)); ("reply_to_message", JObj parent)] in
  exists p g : value,
    snd (Decode.decodeMessage (JObj members)) = None /\
    ptrField "ReplyToMessage" (fst (Decode.decodeMessage (JObj members))) = Some p /\
    ptrField "ReplyToMessage" p = Some g /\
    ptrField "ReplyToMessage" p <> None /\
    intField "MessageID" g = 1.
Proof.
  cbv zeta. eexists. eexists.
  split; [vm_compute; reflexivity |].
  split; [vm_compute; reflexivity |].
  split; [vm_compute; reflexivity |].
  split; [vm_compute; discriminate | vm_compute; reflexivity].
Qed.

Lemma Message_reply_chain_is_kept_witness :
  let grand := [("message_id", JNum (NInt 1))] in
  let parent := [("message_id", JNum (NInt 2)); ("reply_to_message", JObj grand)] in
  let members := [("message_id", JNum (NInt 3)); ("reply_to_message", JObj parent)] in
  let deep := [("entities", Json.nest (Z.to_nat 10000) JNull);
               ("reply_to_message", JObj parent)] in
  Decode.lastValue Message_fields "ReplyToMessage" members = Some (JObj parent) /\
  Decode.lastValue Message_fields "ReplyToMessage" deep = Some (JObj parent) /\
  Decode.populated Message_fields "ReplyToMessage" parent = true /\
  Json.wellNested (JObj members) = true /\
  Json.wellNested (JObj deep) = false /\
  (exists p g : value,
     ptrField "ReplyToMessage" (fst (Decode.decodeMessage (JObj members))) = Some p /\
     ptrField "ReplyToMessage" p = Some g) /\
  ptrField "ReplyToMessage" (fst (Decode.decodeMessage (JObj deep))) = None.
Proof.
  intros grand parent members deep.
  split; [reflexivity |]. split; [reflexivity |]. split; [reflexivity |].
  split; [reflexivity |]. split; [vm_compute; reflexivity |].
  split.
  - apply (Message_reply_chain_is_kept members parent); reflexivity.
  - apply (Message_reply_chain_is_kept deep parent);
      [reflexivity | reflexivity | vm_compute; reflexivity].
Defined.

(** ** Decoding an [APIResponse] *)

Lemma APIResponse_types (f : fieldDecl) :
  In f APIResponse_fields ->
  (f_name f = "Ok" -> f_type f = TBool) /\
  (f_name f = "Result" -> f_type f = TRawMessage).
Proof.
  intros Hf. cbn [In APIResponse_fields] in Hf.
  repeat (destruct Hf as [<- | Hf];
          [split; intros H; first [reflexivity | discriminate H] |]).
  now destruct Hf.
Qed.

(** C2, as the code has it: the decoder fills the fields of the envelope
    each from its own key and relates none of them to the success flag.
    For an object nested no deeper than the scanner allows, the result
    holds the value of the object's last result member, [null] included,
    and is absent exactly when the object has none; the success flag is
    the object's last boolean ok member, and false when it has none; the
    error code is its last error_code member that is an integer in range,
    and zero when it has none; the description is its last string
    description member, and empty when it has none.  An object nested
    deeper is rejected with a syntax error and no field is filled. *)
Theorem APIResponse_fields_are_independent (members : list (string * json)) :
  (Json.wellNested (JObj members) = true ->
   let r := fst (Decode.decodeAPIResponse (JObj members)) in
   rawField "Result" r = Decode.lastValue APIResponse_fields "Result" members /\
   boolField "Ok" r
   = match Settle.settled APIResponse_fields "Ok" TBool members with
     | Some (VBool b) => b
     | _ => false
     end /\
   intField "ErrorCode" r
   = match Settle.settled APIResponse_fields "ErrorCode" TInt members with
     | Some (VInt z) => z
     | _ => 0
     end /\
   stringField "Description" r
   = match Settle.settled APIResponse_fields "Description" TString members with
     | Some (VString s) => s
     | _ => ""
     end) /\
  (Json.wellNested (JObj members) = false ->
   Decode.decodeAPIResponse (JObj members)
   = (zero (TStruct "APIResponse"), Some Json.SyntaxError)).
Proof.
  split; [| apply decode_deep].
  intros Hnested. cbv zeta.
  assert (Hscalar : forall f : fieldDecl,
             In f APIResponse_fields -> Settle.scalar (f_type f) = true ->
             match field (f_name f) (fst (Decode.decodeAPIResponse (JObj members))) with
             | Some v => v
             | None => zero (f_type f)
             end
             = match Settle.settled APIResponse_fields (f_name f) (f_type f) members with
               | Some w => w
               | None => zero (f_type f)
               end).
  { intros f Hf Hs.
    pose proof (decode_scalar "APIResponse" f members Hf Hs Hnested) as H.
    change (fieldsOf "APIResponse") with APIResponse_fields in H.
    unfold Decode.decodeAPIResponse. rewrite H.
    destruct (Settle.settled APIResponse_fields (f_name f) (f_type f) members);
      [reflexivity |].
    cbn [In APIResponse_fields] in Hf.
    repeat (destruct Hf as [<- | Hf]; [reflexivity |]). now destruct Hf. }
  split; [| split; [| split]].
  - unfold Decode.decodeAPIResponse. rewrite decode_object by exact Hnested.
    cbn [fst]. change (fieldsOf "APIResponse") with APIResponse_fields.
    unfold rawField, field. cbn [structFields].
    destruct (Decode.lastValue APIResponse_fields "Result" members) as [x |] eqn:Hlast.
    + destruct (object_last _ _ members (structFields (zero (TStruct "APIResponse")))
                  None x Hlast) as (f & v0 & s0 & Hf & Hname & ->).
      rewrite (proj2 (APIResponse_types f Hf) Hname). now rewrite value_raw.
    + now rewrite object_untouched.
  - pose proof (Hscalar (Field "Ok" TBool "ok")) as H.
    cbn [f_name f_type] in H. unfold boolField.
    specialize (H ltac:(cbn; tauto) eq_refl).
    destruct (field "Ok" _) as [v |],
      (Settle.settled APIResponse_fields "Ok" TBool members) as [w |];
      try subst v; try subst w; reflexivity.
  - pose proof (Hscalar (Field "ErrorCode" TInt "error_code")) as H.
    cbn [f_name f_type] in H. unfold intField.
    specialize (H ltac:(cbn; tauto) eq_refl).
    destruct (field "ErrorCode" _) as [v |],
      (Settle.settled APIResponse_fields "ErrorCode" TInt members) as [w |];
      try subst v; try subst w; reflexivity.
  - pose proof (Hscalar (Field "Description" TString "description")) as H.
    cbn [f_name f_type] in H. unfold stringField.
    specialize (H ltac:(cbn; tauto) eq_refl).
    destruct (field "Description" _) as [v |],
      (Settle.settled APIResponse_fields "Description" TString members) as [w |];
      try subst v; try subst w; reflexivity.
Qed.

Lemma APIResponse_fields_are_independent_witness :
  let members := [("ok", JBool true); ("ok", JStr "yes"); ("result", JNull);
                  ("error_code", JNum (NInt 400)); ("error_code", JNum (NDec 5 1))] in
  let r := fst (Decode.decodeAPIResponse (JObj members)) in
  Json.wellNested (JObj members) = true /\
  rawField "Result" r = Some JNull /\
  boolField "Ok" r = true /\
  intField "ErrorCode" r = 400 /\
  stringField "Description" r = "" /\
  Decode.decodeAPIResponse (JObj [("result", Json.nest (Z.to_nat 10000) JNull)])
  = (zero (TStruct "APIResponse"), Some Json.SyntaxError).
Proof.
  intros members r. split; [reflexivity |].
  destruct (APIResponse_fields_are_independent members) as [Hshallow _].
  destruct (Hshallow eq_refl) as (Hres & Hok & Hcode & Hdesc).
  split; [exact Hres |]. split; [exact Hok |].
  split; [exact Hcode |]. split; [exact Hdesc |].
  apply (proj2 (APIResponse_fields_are_independent
                  [("result", Json.nest (Z.to_nat 10000) JNull)])).
  vm_compute. reflexivity.
Defined.

(** C2, as stated, fails on [{"ok": true}], which decodes without error to
    an envelope with the success flag true and the result absent, and on
    [{"ok": false, "result": [], "error_code": 400, "description": "Bad Request"}],
    which decodes without error to an envelope with the success flag false
    and the result present. *)
Lemma APIResponse_result_apart_from_success :
  let r := Decode.decodeAPIResponse (JObj [("ok", JBool true)]) in
  let r' := Decode.decodeAPIResponse
              (JObj [ ("ok", JBool false); ("result", JArr []);
                      ("error_code", JNum (NInt 400));
                      ("description", JStr "Bad Request") ]) in
  (snd r = None /\ boolField "Ok" (fst r) = true /\ rawField "Result" (fst r) = None /\
   intField "ErrorCode" (fst r) = 0 /\ stringField "Description" (fst r) = "") /\
  (snd r' = None /\ boolField "Ok" (fst r') = false /\
   rawField "Result" (fst r') = Some (JArr []) /\
   intField "ErrorCode" (fst r') = 400 /\
   stringField "Description" (fst r') = "Bad Request").
Proof. vm_compute. repeat split. Qed.

(** ** [User.String] *)

Lemma append_empty (a b : string) : a ++ b = "" -> a = "" /\ b = "".
Proof. destruct a; [now split | discriminate]. Qed.

(** X1: on a user that is not nil, [String] returns without a panic, and
    what it returns is empty only when the username, the first name and
    the last name are all empty; a username that is not empty is returned
    as it is. *)
Theorem User_String_empty_iff (u : value) :
  exists s : string,
    User.String_ (Some u) = Ret s /\
    (s = "" <->
     stringField "UserName" u = "" /\ stringField "FirstName" u = "" /\
     stringField "LastName" u = "") /\
    (stringField "UserName" u <> "" -> s = stringField "UserName" u).
Proof.
  unfold User.String_.
  destruct (String.eqb_spec (stringField "UserName" u) "") as [Hu | Hu]; cbn [negb].
  - destruct (String.eqb_spec (stringField "LastName" u) "") as [Hl | Hl]; cbn [negb].
    + eexists; split; [reflexivity |]. split; [| intros H; now destruct H].
      split; [intros H; now repeat split | intros (_ & H & _); exact H].
    + eexists; split; [reflexivity |]. split; [| intros H; now destruct H].
      split.
      * intros H. apply append_empty in H as [_ H]. discriminate H.
      * intros (_ & _ & H). now destruct Hl.
  - eexists; split; [reflexivity |]. split; [| reflexivity].
    split; [intros H; now destruct Hu | intros (H & _); now destruct Hu].
Qed.

Lemma User_String_empty_iff_witness :
  stringField "UserName" (User.named "Ada" "Lovelace" "ada") <> "" /\
  User.String_ (Some (User.named "Ada" "Lovelace" "ada")) = Ret "ada" /\
  User.String_ (Some (User.named "Ada" "Lovelace" "")) = Ret "Ada Lovelace" /\
  User.String_ (Some (User.named "" "" "")) = Ret "".
Proof.
  split; [discriminate |].
  destruct (User_String_empty_iff (User.named "Ada" "Lovelace" "ada"))
    as (s & Hs & _ & Huser).
  rewrite Hs, (Huser ltac:(discriminate)).
  repeat split.
Defined.

(** ** The predicates of [ChatMember] *)

(** X2: for every ChatMember at most one of [IsCreator],
    [IsAdministrator], [IsMember], [HasLeft] and [WasKicked] returns true,
    and each returns true exactly for its own status. *)
Theorem ChatMember_predicates_exclusive (chat : value) :
  (countTrue (ChatMember.answers chat) <= 1)%nat /\
  (ChatMember.IsCreator chat = true <-> ChatMember.Status chat = "creator") /\
  (ChatMember.IsAdministrator chat = true <-> ChatMember.Status chat = "administrator") /\
  (ChatMember.IsMember chat = true <-> ChatMember.Status chat = "member") /\
  (ChatMember.HasLeft chat = true <-> ChatMember.Status chat = "left") /\
  (ChatMember.WasKicked chat = true <-> ChatMember.Status chat = "kicked").
Proof.
  split.
  - unfold ChatMember.answers, ChatMember.IsCreator, ChatMember.IsAdministrator,
      ChatMember.IsMember, ChatMember.HasLeft, ChatMember.WasKicked.
    destruct (String.eqb_spec (ChatMember.Status chat) "creator") as [H | _];
      [rewrite H; vm_compute; lia |].
    destruct (String.eqb_spec (ChatMember.Status chat) "administrator") as [H | _];
      [rewrite H; vm_compute; lia |].
    destruct (String.eqb_spec (ChatMember.Status chat) "member") as [H | _];
      [rewrite H; vm_compute; lia |].
    destruct (String.eqb_spec (ChatMember.Status chat) "left") as [H | _];
      [rewrite H; vm_compute; lia |].
    destruct (String.eqb (ChatMember.Status chat) "kicked"); vm_compute; lia.
  - repeat split; try apply String.eqb_eq; intros H; now apply String.eqb_eq.
Qed.

Lemma ChatMember_predicates_exclusive_witness :
  (countTrue (ChatMember.answers (ChatMember.ofStatus "left")) <= 1)%nat /\
  ChatMember.HasLeft (ChatMember.ofStatus "left") = true.
Proof.
  destruct (ChatMember_predicates_exclusive (ChatMember.ofStatus "left"))
    as (Hcount & _ & _ & _ & Hleft & _).
  split; [exact Hcount | apply Hleft; reflexivity].
Defined.

(** ** More on the command accessors *)

Section Separated.

Import GoString.

Variable a : ascii.

Local Abbreviation sep := (String a EmptyString).
Local Abbreviation stop := (Ascii.eqb a).

Lemma after_without (s : string) :
  Words.all (fun c => negb (stop c)) s = true -> Words.after stop s = "".
Proof.
  induction s as [| c s IH]; [reflexivity |].
  cbn [Words.all Words.after]. intros H. apply andb_true_iff in H as [Hc Hs].
  apply negb_true_iff in Hc. rewrite Hc. now apply IH.
Qed.

Lemma upTo_without (s : string) :
  Words.all (fun c => negb (stop c)) s = true -> Spec.upTo stop s = s.
Proof.
  induction s as [| c s IH]; [reflexivity |].
  cbn [Words.all Spec.upTo]. intros H. apply andb_true_iff in H as [Hc Hs].
  apply negb_true_iff in Hc. rewrite Hc. now rewrite IH.
Qed.

(** Where [Index] finds the separator, the text is what precedes it, the
    separator and what follows it; where it finds none, there is none. *)
Lemma index_from_parts (s : string) (i : Z) :
  let m := index_from i s sep in
  (m = -1 /\ Words.all (fun c => negb (stop c)) s = true) \/
  (i <= m < i + len s /\
   String.substring (S (Z.to_nat (m - i))) (String.length s - S (Z.to_nat (m - i))) s
   = Words.after stop s /\
   s = Spec.upTo stop s ++ String a (Words.after stop s)).
Proof.
  revert i; induction s as [| c s IH]; intros i; cbn zeta.
  - left; split; reflexivity.
  - cbn [index_from]. rewrite prefix_sep. cbn [Spec.upTo Words.after Words.all].
    destruct (Ascii.eqb_spec a c) as [<- | Hac].
    + right. split; [unfold len; cbn [String.length]; lia |].
      rewrite Z.sub_diag. change (Z.to_nat 0) with 0%nat.
      split; [| reflexivity].
      cbn [String.length].
      replace (S (String.length s) - 1)%nat with (String.length s) by lia.
      cbn [String.substring]. apply substring_all.
    + cbn [negb andb].
      destruct (IH (i + 1)) as [[Hm Hall] | (Hr & Hsub & Hs)].
      * left; split; assumption.
      * right. split; [unfold len in *; cbn [String.length]; lia |].
        replace (Z.to_nat (index_from (i + 1) s sep - i))
          with (S (Z.to_nat (index_from (i + 1) s sep - (i + 1)))) by lia.
        split.
        -- cbn [String.length String.substring].
           replace (S (String.length s) - S (S (Z.to_nat (index_from (i + 1) s sep - (i + 1)))))%nat
             with (String.length s - S (Z.to_nat (index_from (i + 1) s sep - (i + 1))))%nat
             by lia.
           exact Hsub.
        -- cbn [append]. now rewrite <- Hs.
Qed.

End Separated.

(** The substrings that [SplitN(text, " ", 2)] gives for a text that is
    not empty: the text alone when it has no space, else the text before
    its first space and the text after it. *)
Lemma SplitN_parts (c : ascii) (s : string) :
  let text := String c s in
  (GoString.SplitN text " " 2 = [text] /\
   Words.all (fun b => negb (Words.isSpaceByte b)) text = true) \/
  (GoString.SplitN text " " 2
   = [Spec.firstSpaceToken text; Words.after Words.isSpaceByte text] /\
   text = Spec.firstSpaceToken text ++ " " ++ Words.after Words.isSpaceByte text).
Proof.
  cbv zeta. unfold GoString.SplitN.
  change (2 =? 0) with false. cbv iota.
  replace (2 >? GoString.len (String c s) + 1) with false
    by (symmetry; unfold GoString.len; cbn [String.length];
        rewrite Z.gtb_ltb; apply Z.ltb_ge; lia).
  change (Z.to_nat (2 - 1)) with 1%nat. cbn [GoString.splitLoop].
  pose proof (index_from_parts " " (String c s) 0) as Hparts. cbv zeta in Hparts.
  pose proof (Index_sep " " (String c s)) as Hfirst.
  unfold GoString.Index in *.
  destruct Hparts as [[Hm Hall] | (Hr & Hsub & Htext)].
  - left. rewrite Hm. change (-1 <? 0) with true. now split.
  - right. destruct Hfirst as [[Hm _] | [_ Hto]]; [lia |].
    replace (GoString.index_from 0 (String c s) " " <? 0) with false
      by (symmetry; apply Z.ltb_ge; lia).
    rewrite Hto.
    unfold GoString.slice_from, GoString.slice.
    change (GoString.len " ") with 1.
    replace ((0 <=? GoString.index_from 0 (String c s) " " + 1)
             && (GoString.index_from 0 (String c s) " " + 1 <=? GoString.len (String c s))
             && (GoString.len (String c s) <=? GoString.len (String c s)))
      with true by (symmetry; rewrite !andb_true_iff, !Z.leb_le; lia).
    rewrite Z.sub_0_r in Hsub.
    replace (Z.to_nat (GoString.index_from 0 (String c s) " " + 1))
      with (S (Z.to_nat (GoString.index_from 0 (String c s) " "))) by lia.
    replace (Z.to_nat (GoString.len (String c s)
                       - (GoString.index_from 0 (String c s) " " + 1)))
      with (String.length (String c s)
            - S (Z.to_nat (GoString.index_from 0 (String c s) " ")))%nat
      by (unfold GoString.len; lia).
    rewrite Hsub. split; [reflexivity | exact Htext].
Qed.

(** What the accessors return for a command message. *)
Lemma Command_value (m : value) (rest : string) :
  stringField "Text" m = String "/" rest ->
  Message.Command (Some m)
  = Ret (Spec.upTo Words.isAt (Spec.upTo Words.isSpaceByte rest)).
Proof.
  intros Htext.
  destruct (Command_of_token m rest Htext) as (tail & Htail & ->).
  injection Htail as <-. reflexivity.
Qed.

Lemma CommandArguments_value (m : value) (rest : string) :
  stringField "Text" m = String "/" rest ->
  Message.CommandArguments (Some m) = Ret (Words.after Words.isSpaceByte rest).
Proof.
  intros Htext.
  unfold Message.CommandArguments. rewrite IsCommand_text, Htext.
  cbn [bind Ascii.eqb Bool.eqb negb Message.Text]. rewrite Htext.
  destruct (SplitN_parts "/" rest) as [[-> Hall] | [-> _]].
  - cbn [List.length]. change (Z.of_nat 1 =? 2) with false. cbn [negb].
    cbn [Words.all] in Hall. apply andb_true_iff in Hall as [_ Hall].
    f_equal. symmetry. exact (after_without " " rest Hall).
  - reflexivity.
Qed.

Section Cuts.

Variable stop : ascii -> bool.

Local Abbreviation free := (Words.all (fun c => negb (stop c))).

Lemma all_upTo (s : string) : free (Spec.upTo stop s) = true.
Proof.
  induction s as [| c s IH]; [reflexivity |].
  cbn [Spec.upTo]. destruct (stop c) eqn:Hc; [reflexivity |].
  cbn [Words.all]. now rewrite Hc, IH.
Qed.

Lemma all_upTo_keeps (p : ascii -> bool) (s : string) :
  Words.all p s = true -> Words.all p (Spec.upTo stop s) = true.
Proof.
  induction s as [| c s IH]; [reflexivity |].
  cbn [Spec.upTo Words.all]. intros H. apply andb_true_iff in H as [Hc Hs].
  destruct (stop c); [reflexivity |].
  cbn [Words.all]. now rewrite Hc, IH.
Qed.

Lemma upTo_free (x : string) : free x = true -> Spec.upTo stop x = x.
Proof.
  induction x as [| c x IH]; [reflexivity |].
  cbn [Words.all Spec.upTo]. intros H. apply andb_true_iff in H as [Hc Hx].
  apply negb_true_iff in Hc. now rewrite Hc, IH.
Qed.

Lemma upTo_app (x y : string) (c : ascii) :
  free x = true -> stop c = true -> Spec.upTo stop (x ++ String c y) = x.
Proof.
  intros Hx Hc. induction x as [| d x IH]; cbn [append Spec.upTo].
  - now rewrite Hc.
  - cbn [Words.all] in Hx. apply andb_true_iff in Hx as [Hd Hx].
    apply negb_true_iff in Hd. now rewrite Hd, IH.
Qed.

Lemma after_free (x : string) : free x = true -> Words.after stop x = "".
Proof.
  induction x as [| c x IH]; [reflexivity |].
  cbn [Words.all Words.after]. intros H. apply andb_true_iff in H as [Hc Hx].
  apply negb_true_iff in Hc. rewrite Hc. now apply IH.
Qed.

Lemma after_app (x y : string) (c : ascii) :
  free x = true -> stop c = true -> Words.after stop (x ++ String c y) = y.
Proof.
  intros Hx Hc. induction x as [| d x IH]; cbn [append Words.after].
  - now rewrite Hc.
  - cbn [Words.all] in Hx. apply andb_true_iff in Hx as [Hd Hx].
    apply negb_true_iff in Hd. rewrite Hd. now apply IH.
Qed.

End Cuts.

Lemma all_and (p q : ascii -> bool) (s : string) :
  Words.all (fun c => p c && q c) s = Words.all p s && Words.all q s.
Proof.
  induction s as [| c s IH]; [reflexivity |].
  cbn [Words.all]. rewrite IH.
  destruct (p c), (q c), (Words.all p s), (Words.all q s); reflexivity.
Qed.

Lemma all_app (p : ascii -> bool) (x y : string) :
  Words.all p (x ++ y) = Words.all p x && Words.all p y.
Proof.
  induction x as [| c x IH]; [reflexivity |].
  cbn [append Words.all]. rewrite IH. now rewrite andb_assoc.
Qed.

Lemma append_empty_r (s : string) : s ++ "" = s.
Proof. induction s as [| c s IH]; [reflexivity | cbn; now rewrite IH]. Qed.

Lemma append_assoc (x y z : string) : (x ++ y) ++ z = x ++ y ++ z.
Proof. induction x as [| c x IH]; [reflexivity | cbn; now rewrite IH]. Qed.

(** A message's text begins with the marker or it does not. *)
Lemma text_cases (m : value) :
  (exists rest, stringField "Text" m = String "/" rest) \/
  Message.IsCommand (Some m) = Ret false.
Proof.
  rewrite IsCommand_text.
  destruct (stringField "Text" m) as [| c rest]; [now right |].
  destruct (Ascii.eqb_spec c "/") as [-> | _]; [left; now exists rest | now right].
Qed.

(** X3: on a message that is not nil the three command accessors never
    panic, whatever its text: the index [m.Text[0]], the slices [[1:]] and
    [[:i]] and the elements [0] and [1] of the split text are all in
    range where they are evaluated. *)
Theorem command_accessors_never_panic (m : value) :
  exists (b : bool) (command arguments : string),
    Message.IsCommand (Some m) = Ret b /\
    Message.Command (Some m) = Ret command /\
    Message.CommandArguments (Some m) = Ret arguments.
Proof.
  destruct (text_cases m) as [[rest Htext] | Hnot].
  - exists true. eexists. eexists.
    split; [rewrite IsCommand_text, Htext; reflexivity |].
    split; [exact (Command_value m rest Htext) | exact (CommandArguments_value m rest Htext)].
  - exists false, "", "". split; [exact Hnot | now apply not_command].
Qed.

Lemma command_accessors_never_panic_witness :
  exists (b : bool) (command arguments : string),
    Message.IsCommand (Some (Message.withText "/@")) = Ret b /\
    Message.Command (Some (Message.withText "/@")) = Ret command /\
    Message.CommandArguments (Some (Message.withText "/@")) = Ret arguments.
Proof. exact (command_accessors_never_panic (Message.withText "/@")). Defined.

(** X4: the command that [Command] returns holds neither a space nor an
    at sign, whatever the text of the message. *)
Theorem Command_is_one_name (m : value) (command : string) :
  Message.Command (Some m) = Ret command ->
  Words.all Words.nameByte command = true.
Proof.
  intros Hcommand.
  destruct (text_cases m) as [[rest Htext] | Hnot].
  - rewrite (Command_value m rest Htext) in Hcommand. injection Hcommand as <-.
    unfold Words.nameByte. rewrite all_and. apply andb_true_iff. split.
    + apply all_upTo_keeps. apply all_upTo.
    + apply all_upTo.
  - destruct (not_command m Hnot) as [H _]. rewrite H in Hcommand.
    now injection Hcommand as <-.
Qed.

Lemma Command_is_one_name_witness :
  Message.Command (Some (Message.withText "/start@mybot hello world")) = Ret "start" /\
  Words.all Words.nameByte "start" = true.
Proof.
  split; [reflexivity |].
  apply (Command_is_one_name (Message.withText "/start@mybot hello world")).
  reflexivity.
Defined.

(** X5: for a command message, the text is its first space-delimited token
    alone, with no arguments, or that token, one space and the arguments:
    [CommandArguments] returns everything after the first space as it is,
    further spaces included, and nothing is lost between the two. *)
Theorem CommandArguments_is_the_rest (m : value) :
  Message.IsCommand (Some m) = Ret true ->
  exists arguments : string,
    Message.CommandArguments (Some m) = Ret arguments /\
    ((stringField "Text" m = Spec.firstSpaceToken (stringField "Text" m) /\
      arguments = "") \/
     stringField "Text" m
     = Spec.firstSpaceToken (stringField "Text" m) ++ " " ++ arguments).
Proof.
  intros Hcommand.
  destruct (text_cases m) as [[rest Htext] | Hnot];
    [| rewrite Hnot in Hcommand; discriminate Hcommand].
  exists (Words.after Words.isSpaceByte rest).
  split; [now apply CommandArguments_value |].
  rewrite Htext.
  destruct (SplitN_parts "/" rest) as [[_ Hall] | [_ Hparts]].
  - left. split.
    + unfold Spec.firstSpaceToken. symmetry. now apply upTo_free.
    + cbn [Words.all] in Hall. apply andb_true_iff in Hall as [_ Hall].
      now apply after_free.
  - right. exact Hparts.
Qed.

Lemma CommandArguments_is_the_rest_witness :
  Message.IsCommand (Some (Message.withText "/say  a b")) = Ret true /\
  Message.CommandArguments (Some (Message.withText "/say  a b")) = Ret " a b".
Proof.
  split; [reflexivity |].
  destruct (CommandArguments_is_the_rest (Message.withText "/say  a b") eq_refl)
    as (arguments & Hargs & _).
  pose proof Hargs as Hvalue. vm_compute in Hvalue. injection Hvalue as <-.
  exact Hargs.
Defined.

(** X6: a text written as the marker, a name free of spaces and at signs,
    an optional mention of a bot (an at sign and a bot name free of spaces)
    and optional arguments after one space is read back by the accessors:
    [IsCommand] returns true, [Command] the name, [CommandArguments] the
    arguments (the empty string when there are none). *)
Theorem command_text_is_read_back (m : value) (name : string) (bot args : option string) :
  Words.all Words.nameByte name = true ->
  Words.all (fun c => negb (Words.isSpaceByte c))
    match bot with Some b => b | None => "" end = true ->
  stringField "Text" m = Words.commandText name bot args ->
  Message.IsCommand (Some m) = Ret true /\
  Message.Command (Some m) = Ret name /\
  Message.CommandArguments (Some m)
  = Ret match args with Some a => a | None => "" end.
Proof.
  intros Hname Hbot Htext.
  unfold Words.nameByte in Hname. rewrite all_and in Hname.
  apply andb_true_iff in Hname as [Hspace Hat].
  pose (mention := match bot with Some b => "@" ++ b | None => "" end).
  assert (Htext' : stringField "Text" m
                   = String "/" (name ++ mention
                                      ++ match args with Some a => " " ++ a | None => "" end))
    by (rewrite Htext; reflexivity).
  clear Htext. rename Htext' into Htext.
  assert (Hmention : Words.all (fun c => negb (Words.isSpaceByte c)) (name ++ mention) = true).
  { rewrite all_app, Hspace. subst mention. now destruct bot. }
  assert (Htoken : Spec.upTo Words.isSpaceByte
                     (name ++ mention ++ match args with Some a => " " ++ a | None => "" end)
                   = name ++ mention).
  { rewrite <- append_assoc. destruct args as [a |].
    - now apply upTo_app.
    - rewrite append_empty_r. now apply upTo_free. }
  assert (Hcut : Spec.upTo Words.isAt (name ++ mention) = name).
  { subst mention. destruct bot as [b |].
    - now apply upTo_app.
    - rewrite append_empty_r. now apply upTo_free. }
  split; [rewrite IsCommand_text, Htext; reflexivity |]. split.
  - rewrite (Command_value m _ Htext). now rewrite Htoken, Hcut.
  - rewrite (CommandArguments_value m _ Htext). f_equal.
    rewrite <- append_assoc. destruct args as [a |].
    + now apply after_app.
    + rewrite append_empty_r. now apply after_free.
Qed.

Lemma command_text_is_read_back_witness :
  let m := Message.withText "/ban@guard_bot spam user" in
  stringField "Text" m = Words.commandText "ban" (Some "guard_bot") (Some "spam user") /\
  Message.IsCommand (Some m) = Ret true /\
  Message.Command (Some m) = Ret "ban" /\
  Message.CommandArguments (Some m) = Ret "spam user".
Proof.
  intros m. split; [reflexivity |].
  apply (command_text_is_read_back m "ban" (Some "guard_bot") (Some "spam user"));
    reflexivity.
Defined.

(** X7: when no other consumer receives from the channel, [Clear] never
    waits, whatever the producer sends or closes meanwhile: until it has
    returned it can always take its next step. *)
Theorem Clear_never_waits_as_sole_consumer
    (c : Chan.chan) (sched : list Chan.actor) (k : Chan.config) :
  Sched.soleConsumer sched = true ->
  Chan.run sched (Chan.start c) = Some k ->
  Chan.at_ k <> Chan.Returned ->
  Chan.step Chan.Self k <> None.
Proof.
  intros Hsole Hrun Hat.
  destruct (run_sole sched (Chan.start c) k Hsole) as [Hk _];
    [discriminate | exact Hrun |].
  unfold Sched.tested in Hk. destruct k as [[b n cl] p d].
  cbn [Chan.at_ Chan.ch Chan.buf] in *.
  destruct p; [| | now destruct Hat].
  - cbn. now destruct (negb _).
  - destruct b as [| x b]; [now destruct Hk | discriminate].
Qed.

Lemma Clear_never_waits_as_sole_consumer_witness :
  let c := Chan.Chan [VInt 1] 1 false in
  let sched := [Chan.Self; Chan.Self; Chan.Producer (VInt 2); Chan.Closer; Chan.Self] in
  Chan.run sched (Chan.start c)
  = Some (Chan.Config (Chan.Chan [VInt 2] 1 true) Chan.AtReceive [VInt 1]) /\
  Chan.step Chan.Self (Chan.Config (Chan.Chan [VInt 2] 1 true) Chan.AtReceive [VInt 1])
  <> None.
Proof.
  intros c sched. split; [reflexivity |].
  apply (Clear_never_waits_as_sole_consumer c sched);
    [reflexivity | reflexivity | discriminate].
Defined.

(** X8: when no other consumer receives from the channel, nothing is lost,
    repeated or reordered: at every moment the items [Clear] has dropped
    followed by the items still buffered are the items buffered at the call
    followed by the items the producer has sent since, in that order. *)
Theorem Clear_drops_oldest_first
    (c : Chan.chan) (sched : list Chan.actor) (k : Chan.config) :
  Sched.soleConsumer sched = true ->
  Chan.run sched (Chan.start c) = Some k ->
  (Chan.dropped k ++ Chan.buf (Chan.ch k) = Chan.buf c ++ Sched.produced sched)%list.
Proof.
  intros Hsole Hrun.
  destruct (run_sole sched (Chan.start c) k Hsole) as [_ Hitems];
    [discriminate | exact Hrun |].
  exact Hitems.
Qed.

Lemma Clear_drops_oldest_first_witness :
  let c := Chan.Chan [VInt 1; VInt 2] 2 false in
  let sched := [Chan.Self; Chan.Self; Chan.Producer (VInt 3); Chan.Self; Chan.Self] in
  Chan.run sched (Chan.start c)
  = Some (Chan.Config (Chan.Chan [VInt 3] 2 false) Chan.AtTest [VInt 1; VInt 2]) /\
  ([VInt 1; VInt 2] ++ [VInt 3] = [VInt 1; VInt 2] ++ Sched.produced sched)%list.
Proof.
  intros c sched. split; [reflexivity |].
  apply (Clear_drops_oldest_first c sched
           (Chan.Config (Chan.Chan [VInt 3] 2 false) Chan.AtTest [VInt 1; VInt 2]));
    reflexivity.
Defined.

(** X9: when no other consumer receives from the channel, [Clear] returns
    once the producer leaves it alone: from wherever the call is, at most
    two steps for each item then buffered and one more bring it to its
    return. *)
Theorem Clear_returns_once_left_alone
    (c : Chan.chan) (sched : list Chan.actor) (k : Chan.config) :
  Sched.soleConsumer sched = true ->
  Chan.run sched (Chan.start c) = Some k ->
  exists (n : nat) (k' : Chan.config),
    (n <= 2 * List.length (Chan.buf (Chan.ch k)) + 1)%nat /\
    Chan.run (sched ++ repeat Chan.Self n) (Chan.start c) = Some k' /\
    Chan.at_ k' = Chan.Returned.
Proof.
  intros Hsole Hrun.
  destruct (run_sole sched (Chan.start c) k Hsole) as [Hk _];
    [discriminate | exact Hrun |].
  unfold Sched.tested in Hk. destruct k as [[b n cl] p d].
  cbn [Chan.at_ Chan.ch Chan.buf] in *.
  destruct p.
  - exists (2 * List.length b + 1)%nat. eexists.
    split; [lia |]. rewrite run_app, Hrun, run_alone. now split.
  - destruct b as [| x b]; [now destruct Hk |].
    exists (S (2 * List.length b + 1)). eexists.
    split; [cbn [List.length]; lia |].
    rewrite run_app, Hrun. cbn [repeat Chan.run].
    unfold Chan.step at 1. cbn [Chan.at_ Chan.ch Chan.recv Chan.buf Chan.cap
                                  Chan.closed Chan.dropped].
    rewrite run_alone. now split.
  - exists 0%nat. eexists. split; [lia |].
    rewrite run_app, Hrun. cbn [repeat Chan.run]. now split.
Qed.

Lemma Clear_returns_once_left_alone_witness :
  let c := Chan.Chan [VInt 1] 1 false in
  let sched := [Chan.Self; Chan.Self; Chan.Producer (VInt 2); Chan.Self] in
  exists (n : nat) (k' : Chan.config),
    (n <= 3)%nat /\
    Chan.run (sched ++ repeat Chan.Self n) (Chan.start c) = Some k' /\
    Chan.at_ k' = Chan.Returned.
Proof.
  intros c sched.
  apply (Clear_returns_once_left_alone c sched
           (Chan.Config (Chan.Chan [VInt 2] 1 false) Chan.AtReceive [VInt 1]));
    reflexivity.
Defined.

(** ** Members that fit their field *)

Lemma decode_last_stored
    (name : string) (f : fieldDecl) (members : list (string * json))
    (x : json) (w : value) :
  In f (fieldsOf name) ->
  Decode.lastValue (fieldsOf name) (f_name f) members = Some x ->
  Members.stored (f_type f) x = Some w ->
  Json.wellNested (JObj members) = true ->
  field (f_name f) (fst (Decode.decode name (JObj members))) = Some w.
Proof.
  intros Hf Hlast Hstored Hnested.
  rewrite decode_object by exact Hnested. cbn [fst]. unfold field. cbn [structFields].
  destruct (object_last (fieldsOf name) (f_name f) members
              (structFields (zero (TStruct name))) None x Hlast)
    as (g & v0 & s0 & Hg & Hname & ->).
  rewrite (field_by_name name f g Hf Hg Hname).
  f_equal. now apply value_stored.
Qed.

(** The depth of an object is the larger of the depths of two parts of its
    members. *)
Lemma depth_app (m1 m2 : list (string * json)) :
  Json.depth (JObj (m1 ++ m2)) = Z.max (Json.depth (JObj m1)) (Json.depth (JObj m2)).
Proof.
  cbn [Json.depth].
  induction m1 as [| [k x] rest IH]; cbn [app fold_right].
  - assert (H : 0 <= fold_right (fun kx d => let '(_, x) := kx in Z.max (Json.depth x) d)
                       0 m2).
    { induction m2 as [| [k x] rest IH]; cbn [fold_right]; lia. }
    lia.
  - lia.
Qed.

(** X11: in every struct of the table, decoded from an object nested no
    deeper than the scanner allows, a field whose deciding member is a
    boolean, a string or a number that fits the field's type holds that
    very value after decoding, a raw field the member's value as it is, a
    pointer or slice field whose deciding member is [null] is nil; and
    this whatever the other members are, ill-typed ones included.  From an
    object nested deeper nothing is stored: it is rejected as a whole with
    a syntax error. *)
Theorem decode_stores_fitting_member
    (name : string) (f : fieldDecl) (members : list (string * json))
    (x : json) (w : value) :
  In f (fieldsOf name) ->
  Decode.lastValue (fieldsOf name) (f_name f) members = Some x ->
  Members.stored (f_type f) x = Some w ->
  (Json.wellNested (JObj members) = true ->
   field (f_name f) (fst (Decode.decode name (JObj members))) = Some w) /\
  (Json.wellNested (JObj members) = false ->
   Decode.decode name (JObj members) = (zero (TStruct name), Some Json.SyntaxError)).
Proof.
  intros Hf Hlast Hstored. split.
  - now apply decode_last_stored with (x := x).
  - apply decode_deep.
Qed.

Lemma decode_stores_fitting_member_witness :
  let members := [ ("id", JNum (NInt (-1001)));
                   ("type", JStr "group");
                   ("title", JBool true);
                   ("TYPE", JStr "channel") ] in
  let deep := [ ("photo", Json.nest (Z.to_nat 10000) JNull);
                ("type", JStr "channel") ] in
  Decode.lastValue (fieldsOf "Chat") "Type" members = Some (JStr "channel") /\
  Json.wellNested (JObj members) = true /\
  field "Type" (fst (Decode.decode "Chat" (JObj members))) = Some (VString "channel") /\
  snd (Decode.decode "Chat" (JObj members)) <> None /\
  Decode.lastValue (fieldsOf "Chat") "Type" deep = Some (JStr "channel") /\
  Json.wellNested (JObj deep) = false /\
  Decode.decode "Chat" (JObj deep) = (zero (TStruct "Chat"), Some Json.SyntaxError).
Proof.
  intros members deep. split; [reflexivity |]. split; [reflexivity |]. split.
  - apply (decode_stores_fitting_member "Chat" (Field "Type" TString "type") members
             (JStr "channel")); [| reflexivity | reflexivity | reflexivity].
    cbn. tauto.
  - split; [vm_compute; discriminate |]. split; [reflexivity |].
    split; [vm_compute; reflexivity |].
    apply (decode_stores_fitting_member "Chat" (Field "Type" TString "type") deep
             (JStr "channel") (VString "channel"));
      [| reflexivity | reflexivity | vm_compute; reflexivity].
    cbn. tauto.
Defined.

(** ** Errors *)

(** X12: for every struct, an object with a member that is decoded into a
    field and whose value is of a kind that does not fit the field's type (a
    string for an integer, a number for a sub-payload, an integer out of
    range, ...) is rejected, wherever the member stands among the others:
    with a type error when the object is nested no deeper than the scanner
    allows, with a syntax error when it is nested deeper. *)
Theorem decode_reports_misfit
    (name : string) (members : list (string * json))
    (key : string) (x : json) (f : fieldDecl) :
  In (key, x) members ->
  Json.findField (fieldsOf name) key = Some f ->
  Members.fits (f_type f) x = false ->
  exists e : Json.error,
    snd (Decode.decode name (JObj members)) = Some e /\
    (Json.wellNested (JObj members) = true ->
     exists t : Json.UnmarshalTypeError, e = Json.Mismatch t) /\
    (Json.wellNested (JObj members) = false -> e = Json.SyntaxError).
Proof.
  intros Hin Hfind Hfit.
  destruct (Json.wellNested (JObj members)) eqn:Hnested.
  - rewrite decode_object by exact Hnested. cbn [snd].
    pose proof (object_misfit (fieldsOf name) members key x f Hin Hfind Hfit
                  (structFields (zero (TStruct name))) None) as Herr.
    destruct (snd (Json.object _ _ _ _ _)) as [t |]; [| now destruct Herr].
    exists (Json.Mismatch t). split; [reflexivity |].
    split; [intros _; now exists t | discriminate].
  - rewrite decode_deep by exact Hnested.
    exists Json.SyntaxError. split; [reflexivity |].
    split; [discriminate | reflexivity].
Qed.

Lemma decode_reports_misfit_witness :
  let members := [ ("update_id", JStr "7"); ("message", JObj [("text", JStr "hi")]) ] in
  Json.findField (fieldsOf "Update") "update_id" = Some (Field "UpdateID" TInt "update_id") /\
  Members.fits TInt (JStr "7") = false /\
  snd (Decode.decodeUpdate (JObj members))
  = Some (Json.Mismatch (Json.TypeError Json.KString TInt)) /\
  exists e : Json.error,
    snd (Decode.decodeUpdate (JObj members)) = Some e /\
    (Json.wellNested (JObj members) = true ->
     exists t : Json.UnmarshalTypeError, e = Json.Mismatch t) /\
    (Json.wellNested (JObj members) = false -> e = Json.SyntaxError).
Proof.
  intros members. split; [reflexivity |]. split; [reflexivity |].
  split; [reflexivity |].
  apply (decode_reports_misfit "Update" members "update_id" (JStr "7")
           (Field "UpdateID" TInt "update_id")); [| reflexivity | reflexivity].
  cbn. tauto.
Defined.

(** X13: the error reported is the first: once the members read so far
    have produced an error, no member that follows changes the error that
    decoding returns, unless it nests the object deeper than the scanner
    allows, when the error is a syntax error. *)
Theorem decode_reports_first_error
    (name : string) (m1 m2 : list (string * json)) (e : Json.error) :
  snd (Decode.decode name (JObj m1)) = Some e ->
  snd (Decode.decode name (JObj (m1 ++ m2)))
  = Some (if Json.wellNested (JObj (m1 ++ m2)) then e else Json.SyntaxError).
Proof.
  intros H.
  destruct (Json.wellNested (JObj (m1 ++ m2))) eqn:Hnested.
  - assert (Hm1 : Json.wellNested (JObj m1) = true).
    { unfold Json.wellNested in *. apply Z.leb_le in Hnested. apply Z.leb_le.
      rewrite depth_app in Hnested. lia. }
    rewrite decode_object in H by exact Hm1.
    rewrite decode_object by exact Hnested. cbn [snd] in *.
    rewrite object_app.
    destruct (snd (Json.object Json.value_ (fieldsOf name) m1 _ None)) as [t |];
      [| discriminate H].
    rewrite object_keeps_error. exact H.
  - now rewrite decode_deep by exact Hnested.
Qed.

Lemma decode_reports_first_error_witness :
  let m1 := [("update_id", JBool true)] in
  let m2 := [("message", JNum (NInt 1)); ("update_id", JNum (NInt 9))] in
  let m3 := [("message", Json.nest (Z.to_nat 10000) JNull)] in
  snd (Decode.decodeUpdate (JObj m1)) = Some (Json.Mismatch (Json.TypeError Json.KBool TInt)) /\
  snd (Decode.decodeUpdate (JObj (m1 ++ m2)))
  = Some (Json.Mismatch (Json.TypeError Json.KBool TInt)) /\
  snd (Decode.decodeUpdate (JObj (m1 ++ m3))) = Some Json.SyntaxError.
Proof.
  intros m1 m2 m3. split; [reflexivity |]. split.
  - apply (decode_reports_first_error "Update" m1 m2). reflexivity.
  - assert (Hdeep : Json.wellNested (JObj (m1 ++ m3)) = false)
      by (vm_compute; reflexivity).
    pose proof (decode_reports_first_error "Update" m1 m3
                  (Json.Mismatch (Json.TypeError Json.KBool TInt)) eq_refl) as H.
    rewrite Hdeep in H. exact H.
Defined.

(** X14: the identifier of an update nested no deeper than the scanner
    allows is read whatever else the object holds: when the member that
    decides it is an integer in the range of [int], the decoded update has
    that identifier, also when other members are ill typed and decoding
    returns an error.  Of an object nested deeper the identifier is not
    read: the update keeps the identifier 0. *)
Theorem Update_identifier_is_recovered (members : list (string * json)) (z : Z) :
  Decode.lastValue Update_fields "UpdateID" members = Some (JNum (NInt z)) ->
  Json.intFits z = true ->
  Update.UpdateID (fst (Decode.decodeUpdate (JObj members)))
  = if Json.wellNested (JObj members) then z else 0.
Proof.
  intros Hlast Hfits.
  destruct (Json.wellNested (JObj members)) eqn:Hnested.
  - assert (H : field "UpdateID" (fst (Decode.decode "Update" (JObj members)))
                = Some (VInt z)).
    { apply (decode_last_stored "Update" (Field "UpdateID" TInt "update_id")
               members (JNum (NInt z))).
      - cbn. tauto.
      - exact Hlast.
      - cbn. now rewrite Hfits.
      - exact Hnested. }
    unfold Update.UpdateID, intField, Decode.decodeUpdate. now rewrite H.
  - unfold Decode.decodeUpdate. now rewrite decode_deep by exact Hnested.
Qed.

Lemma Update_identifier_is_recovered_witness :
  let members := [ ("update_id", JNum (NInt 42)); ("message", JStr "oops") ] in
  snd (Decode.decodeUpdate (JObj members)) <> None /\
  Update.UpdateID (fst (Decode.decodeUpdate (JObj members))) = 42.
Proof.
  intros members. split; [vm_compute; discriminate |].
  apply (Update_identifier_is_recovered members 42); reflexivity.
Defined.

(** ** Keys *)

(** X15: in every struct of the table a key selects a field exactly when
    it equals the name in the field's tag up to case folding: the name
    itself, the name in capitals or in mixed case all select the field,
    and no key selects two. *)
Theorem key_selects_field_up_to_case (name key : string) (f : fieldDecl) :
  In f (fieldsOf name) ->
  (Json.findField (fieldsOf name) key = Some f
   <-> Json.foldName key = Json.foldName (f_tag f)).
Proof.
  intros Hf.
  pose proof (structs_wellDeclared name) as Hwd.
  unfold Members.wellDeclared in Hwd. apply andb_true_iff in Hwd as [_ Htags].
  apply distinct_NoDup in Htags.
  assert (Hsame : forall g, In g (fieldsOf name) ->
                            Json.foldName (f_tag g) = Json.foldName key ->
                            Json.foldName key = Json.foldName (f_tag f) -> g = f).
  { intros g Hg Hgk Hkf.
    apply (NoDup_map_eq (fun h => Json.foldName (f_tag h)) (fieldsOf name) g f);
      [exact Htags | exact Hg | exact Hf | congruence]. }
  unfold Json.findField. split.
  - destruct (find (fun g => String.eqb (f_tag g) key) (fieldsOf name)) as [g |] eqn:Hexact.
    + intros H; injection H as ->.
      apply find_some in Hexact as [_ Heq]. apply String.eqb_eq in Heq. now subst key.
    + intros H. apply find_some in H as [_ Heq]. apply String.eqb_eq in Heq.
      now symmetry.
  - intros Hkey.
    destruct (find (fun g => String.eqb (f_tag g) key) (fieldsOf name)) as [g |] eqn:Hexact.
    + apply find_some in Hexact as [Hg Heq]. apply String.eqb_eq in Heq.
      f_equal. apply Hsame; [exact Hg | now subst key | exact Hkey].
    + destruct (find (fun g => String.eqb (Json.foldName (f_tag g)) (Json.foldName key))
                  (fieldsOf name)) as [g |] eqn:Hfold.
      * apply find_some in Hfold as [Hg Heq]. apply String.eqb_eq in Heq.
        f_equal. now apply Hsame.
      * pose proof (find_none _ _ Hfold f Hf) as Hnone. cbn beta in Hnone.
        rewrite Hkey, String.eqb_refl in Hnone. discriminate Hnone.
Qed.

Lemma key_selects_field_up_to_case_witness :
  Json.findField (fieldsOf "Update") "Callback_Query"
  = Some (Field "CallbackQuery" (TPtr (TStruct "CallbackQuery")) "callback_query").
Proof.
  apply (key_selects_field_up_to_case "Update" "Callback_Query"
           (Field "CallbackQuery" (TPtr (TStruct "CallbackQuery")) "callback_query")).
  - cbn. tauto.
  - reflexivity.
Defined.

(** ** Sub-objects *)

(** A pointer field whose deciding member is an object holds the struct
    that the members of that object were decoded into. *)
Lemma object_last_struct (name : string) (f : fieldDecl) (sub : string)
    (members inner : list (string * json)) :
  In f (fieldsOf name) -> f_type f = TPtr (TStruct sub) ->
  Decode.lastValue (fieldsOf name) (f_name f) members = Some (JObj inner) ->
  Json.wellNested (JObj members) = true ->
  exists (fs0 : list (string * value)) (s0 : Json.errs),
    ptrField (f_name f) (fst (Decode.decode name (JObj members)))
    = Some (VStruct (fst (Json.object Json.value_ (fieldsOf sub) inner fs0 s0))).
Proof.
  intros Hf Htype Hlast Hnested.
  rewrite decode_object by exact Hnested.
  cbn [fst]. unfold ptrField, field. cbn [structFields].
  destruct (object_last (fieldsOf name) (f_name f) members
              (structFields (zero (TStruct name))) None (JObj inner) Hlast)
    as (g & v0 & s0 & Hg & Hname & ->).
  rewrite (field_by_name name f g Hf Hg Hname), Htype.
  cbn [Json.value_ Json.indirect].
  match goal with
  | |- context [Json.object Json.value_ (fieldsOf sub) inner ?fs0 s0] =>
      exists fs0, s0; destruct (Json.object Json.value_ (fieldsOf sub) inner fs0 s0)
  end.
  reflexivity.
Qed.

Lemma object_last_stored (name : string) (f : fieldDecl)
    (members : list (string * json)) (x : json) (w : value)
    (fs : list (string * value)) (s : Json.errs) :
  In f (fieldsOf name) ->
  Decode.lastValue (fieldsOf name) (f_name f) members = Some x ->
  Members.stored (f_type f) x = Some w ->
  field (f_name f) (VStruct (fst (Json.object Json.value_ (fieldsOf name) members fs s)))
  = Some w.
Proof.
  intros Hf Hlast Hstored. unfold field. cbn [structFields].
  destruct (object_last (fieldsOf name) (f_name f) members fs s x Hlast)
    as (g & v0 & s0 & Hg & Hname & ->).
  rewrite (field_by_name name f g Hf Hg Hname).
  f_equal. now apply value_stored.
Qed.

(** X16: the text of an update's message passes through both levels of
    decoding unchanged: when the update object is nested no deeper than
    the scanner allows, the member that decides the message is an object
    and the member that decides its text is a string, the decoded update
    has a message, and its text is that string (so the command accessors
    see exactly the text that was sent).  Of an update object nested deeper
    no message is decoded. *)
Theorem Update_message_text_is_decoded
    (members inner : list (string * json)) (text : string) :
  Decode.lastValue Update_fields "Message" members = Some (JObj inner) ->
  Decode.lastValue Message_fields "Text" inner = Some (JStr text) ->
  (Json.wellNested (JObj members) = true ->
   exists m : value,
     Update.Message (fst (Decode.decodeUpdate (JObj members))) = Some m /\
     Message.Text (Some m) = Ret text) /\
  (Json.wellNested (JObj members) = false ->
   Update.Message (fst (Decode.decodeUpdate (JObj members))) = None).
Proof.
  intros Hmessage Htext. split; [intros Hnested | intros Hdeep].
  2: { unfold Decode.decodeUpdate. now rewrite decode_deep by exact Hdeep. }
  destruct (object_last_struct "Update" (Field "Message" (TPtr (TStruct "Message")) "message")
              "Message" members inner) as (fs0 & s0 & Hptr);
    [cbn; tauto | reflexivity | exact Hmessage | exact Hnested |].
  eexists. split; [exact Hptr |].
  pose proof (object_last_stored "Message" (Field "Text" TString "text") inner
                (JStr text) (VString text) fs0 s0) as H.
  cbn [f_name f_type] in H.
  unfold Message.Text, stringField.
  rewrite H; [reflexivity | cbn; tauto | exact Htext | reflexivity].
Qed.

Lemma Update_message_text_is_decoded_witness :
  let inner := [("message_id", JNum (NInt 5)); ("text", JStr "/help me")] in
  let members := [("update_id", JNum (NInt 1)); ("message", JObj inner)] in
  let deep := [("poll", Json.nest (Z.to_nat 10000) JNull); ("message", JObj inner)] in
  (exists m : value,
     Update.Message (fst (Decode.decodeUpdate (JObj members))) = Some m /\
     Message.Text (Some m) = Ret "/help me") /\
  Update.Message (fst (Decode.decodeUpdate (JObj deep))) = None.
Proof.
  intros inner members deep. split.
  - apply (Update_message_text_is_decoded members inner "/help me"); reflexivity.
  - apply (Update_message_text_is_decoded deep inner "/help me");
      [reflexivity | reflexivity | vm_compute; reflexivity].
Defined.

(** X17: the parameters of a failed request are surfaced as they were
    sent: when the envelope object is nested no deeper than the scanner
    allows and the member that decides its parameters is an object, the
    decoded envelope has parameters, and each of the two,
    [MigrateToChatID] and [RetryAfter], whose deciding member there is an
    integer in range holds that integer.  Of an envelope object nested
    deeper no parameters are decoded. *)
Theorem APIResponse_parameters_are_decoded
    (members params : list (string * json)) :
  Decode.lastValue APIResponse_fields "Parameters" members = Some (JObj params) ->
  (Json.wellNested (JObj members) = true ->
   exists p : value,
     ptrField "Parameters" (fst (Decode.decodeAPIResponse (JObj members))) = Some p /\
     (forall z : Z,
        Decode.lastValue ResponseParameters_fields "RetryAfter" params
        = Some (JNum (NInt z)) ->
        Json.intFits z = true -> intField "RetryAfter" p = z) /\
     (forall z : Z,
        Decode.lastValue ResponseParameters_fields "MigrateToChatID" params
        = Some (JNum (NInt z)) ->
        Json.intFits z = true -> intField "MigrateToChatID" p = z)) /\
  (Json.wellNested (JObj members) = false ->
   ptrField "Parameters" (fst (Decode.decodeAPIResponse (JObj members))) = None).
Proof.
  intros Hparams. split; [intros Hnested | intros Hdeep].
  2: { unfold Decode.decodeAPIResponse. now rewrite decode_deep by exact Hdeep. }
  destruct (object_last_struct "APIResponse"
              (Field "Parameters" (TPtr (TStruct "ResponseParameters")) "parameters")
              "ResponseParameters" members params) as (fs0 & s0 & Hptr);
    [cbn; tauto | reflexivity | exact Hparams | exact Hnested |].
  eexists. split; [exact Hptr |]. split; intros z Hlast Hfits; unfold intField.
  - pose proof (object_last_stored "ResponseParameters"
                  (Field "RetryAfter" TInt "retry_after")
                  params (JNum (NInt z)) (VInt z) fs0 s0) as H.
    cbn [f_name f_type] in H.
    rewrite H; [reflexivity | cbn; tauto | exact Hlast | cbn; now rewrite Hfits].
  - pose proof (object_last_stored "ResponseParameters"
                  (Field "MigrateToChatID" TInt64 "migrate_to_chat_id")
                  params (JNum (NInt z)) (VInt z) fs0 s0) as H.
    cbn [f_name f_type] in H.
    rewrite H; [reflexivity | cbn; tauto | exact Hlast | cbn; now rewrite Hfits].
Qed.

Lemma APIResponse_parameters_are_decoded_witness :
  let params := [("retry_after", JNum (NInt 30))] in
  let members := [ ("ok", JBool false); ("error_code", JNum (NInt 429));
                   ("description", JStr "Too Many Requests");
                   ("parameters", JObj params) ] in
  let deep := [ ("result", Json.nest (Z.to_nat 10000) JNull);
                ("parameters", JObj params) ] in
  (exists p : value,
     ptrField "Parameters" (fst (Decode.decodeAPIResponse (JObj members))) = Some p /\
     intField "RetryAfter" p = 30) /\
  ptrField "Parameters" (fst (Decode.decodeAPIResponse (JObj deep))) = None.
Proof.
  intros params members deep. split.
  - destruct (APIResponse_parameters_are_decoded members params eq_refl)
      as [Hshallow _].
    destruct (Hshallow eq_refl) as (p & Hp & Hretry & _).
    exists p. split; [exact Hp |]. apply Hretry; reflexivity.
  - apply (APIResponse_parameters_are_decoded deep params eq_refl).
    vm_compute. reflexivity.
Defined.

